(** * The asset pipeline front end: 2D concepts, prototypes, gallery, final model

    A shallow embedding of the four pages of the application
    ([TwoDPage], [PrototypePage], [GalleryPage], [FinalPage]).  A page is a
    React component: its [useState] cells form a record, every [await] of a
    handler is a point where the handler is suspended and other events may
    run, and the requests a page has issued are kept as a trace.  An event
    is a click, a timer firing or a pending [fetch] settling; [step] runs
    the synchronous code the event triggers. *)

From stdpp Require Import base numbers strings list option gmap.

Open Scope Z_scope.

(** ** JavaScript strings as typed by the user *)

Module Js.

(** A string is a sequence of UTF-16 code units. *)
Definition text := list N.

(** WhiteSpace and LineTerminator code points, the ones
    [String.prototype.trim] strips. *)
Definition is_white_space (c : N) : bool :=
  ((c =? 9) || (c =? 10) || (c =? 11) || (c =? 12) || (c =? 13)
   || (c =? 32) || (c =? 160) || (c =? 5760)
   || ((8192 <=? c) && (c <=? 8202))
   || (c =? 8232) || (c =? 8233) || (c =? 8239) || (c =? 8287)
   || (c =? 12288) || (c =? 65279))%N.

Fixpoint trimStart (s : text) : text :=
  match s with
  | c :: s' => if is_white_space c then trimStart s' else s
  | [] => []
  end.

Definition trimEnd (s : text) : text := reverse (trimStart (reverse s)).

Definition trim (s : text) : text := trimEnd (trimStart s).

(** Truthiness of a string: only the empty string is falsy. *)
Definition truthy (s : text) : bool :=
  match s with [] => false | _ :: _ => true end.

Definition truthy_string (s : string) : bool :=
  match s with EmptyString => false | String _ _ => true end.

(** [s || undefined] *)
Definition or_undefined (s : text) : option text :=
  if truthy s then Some s else None.

(** "Empty or whitespace-only". *)
Definition blank (s : text) : bool := forallb is_white_space s.

(** The ASCII text of a literal, for examples. *)
Fixpoint of_string (s : string) : text :=
  match s with
  | EmptyString => []
  | String a s' => Ascii.N_of_ascii a :: of_string s'
  end.

End Js.

(** ** The HTTP surface *)

Module Http.

(** One constructor per [fetch] call site of the pages: method, path and
    JSON body.  Query-string values that the source passes through
    [Number(...)] are kept as the text they are read from. *)
Inductive request : Type :=
| POST_generate_2d (prompt : Js.text) (refinement_notes : option Js.text)
| POST_refine_2d (image_id : Z) (refinement_text : Js.text)
| GET_generate_2d (imageId : string)
| POST_generate_shap_e (image_id : string)
| POST_gallery_save (item_id : Z) (name : option string)
| GET_gallery
| DELETE_gallery (id : Z)
| POST_generate_meshy (prototype_id : string)
| GET_generate_meshy_task (task_id : string)
| GET_generate_meshy (gallery_item_id : Z).

(** A thrown value; [message] is what [err.message] reads. *)
Record exn : Type := Thrown { message : option string }.

(** [new Error(text)] *)
Definition Error (text : string) : exn := Thrown (Some text).

(** A response: its status and what reading the body as text or as JSON
    gives (either read may itself throw). *)
Record response (A : Type) : Type := Response {
  status : Z;
  text : exn + string;
  json : exn + A
}.
Arguments Response {A} _ _ _.
Arguments status {A} _.
Arguments text {A} _.
Arguments json {A} _.

(** [res.ok]: the status is in the range 200-299. *)
Definition ok {A} (res : response A) : bool :=
  (200 <=? status res) && (status res <=? 299).

(** What [await fetch(...)] delivers: the promise rejects (network
    failure) or resolves to a response of any status. *)
Inductive outcome (A : Type) : Type :=
| Rejected (err : exn)
| Resolved (res : response A).
Arguments Rejected {A} _.
Arguments Resolved {A} _.

(** The [try] block shared by the stage handlers:
<<
    const res = await fetch(...);
    if (!res.ok) throw new Error(await res.text());
    const data = await res.json();
>>
    It ends with the data or with the value thrown. *)
Definition try_json {A} (o : outcome A) : exn + A :=
  match o with
  | Rejected err => inl err
  | Resolved res =>
      if ok res then json res
      else match text res with
           | inl err => inl err
           | inr body => inl (Error body)
           end
  end.

(** The transport request failed: a network error or a non-2xx response. *)
Definition transport_failed {A} (o : outcome A) : Prop :=
  match o with
  | Rejected _ => True
  | Resolved res => ok res = false
  end.

(** [err.message ?? fallback] *)
Definition message_or (err : exn) (fallback : string) : string :=
  default fallback (message err).

(** A 2xx response carrying [data], and a non-2xx one carrying [body]; the
    read of the body that the handlers do not perform on such a response is
    left as a throw. *)
Definition ok_with {A} (data : A) : outcome A :=
  Resolved (Response 200 (inl (Thrown None)) (inr data)).

Definition failed_with {A} (code : Z) (body : string) : outcome A :=
  Resolved (Response code (inr body) (inl (Thrown None))).

End Http.

(** ** Payloads, with the fields the pages read *)

Module ConceptImage.
Record t : Type := Make {
  id : Z;
  prompt : Js.text;
  image_url : option string;
  name : option string
}.
End ConceptImage.

(** ** Tier 1: [TwoDPage] *)

Module TwoDPage.

Record state : Type := State {
  prompt : Js.text;
  refinementNotes : Js.text;
  loading : bool;
  error : option string;
  results : list ConceptImage.t
}.

(** The [await] a pending request will resume. *)
Inductive pending : Type := In_handleGenerate | In_handleRefine.

(** [pushed] lists the image ids [handleContinueToPrototype] navigated to
    ([/prototype?imageId=id]). *)
Record world : Type := World {
  st : state;
  inflight : list pending;
  sent : list Http.request;
  pushed : list Z
}.

Definition initial : world := World (State [] [] false None []) [] [] [].

Definition setLoading (b : bool) (s : state) : state :=
  State (prompt s) (refinementNotes s) b (error s) (results s).
Definition setError (e : option string) (s : state) : state :=
  State (prompt s) (refinementNotes s) (loading s) e (results s).
Definition setResults (f : list ConceptImage.t -> list ConceptImage.t)
    (s : state) : state :=
  State (prompt s) (refinementNotes s) (loading s) (error s) (f (results s)).
Definition setPrompt (p : Js.text) (s : state) : state :=
  State p (refinementNotes s) (loading s) (error s) (results s).
Definition setRefinementNotes (n : Js.text) (s : state) : state :=
  State (prompt s) n (loading s) (error s) (results s).

(** The handler up to its first [await]. *)
Definition handleGenerate (w : world) : world :=
  if negb (Js.truthy (Js.trim (prompt (st w)))) then w
  else
    World (setError None (setLoading true (st w)))
          (inflight w ++ [In_handleGenerate])
          (sent w ++ [Http.POST_generate_2d (prompt (st w))
                        (Js.or_undefined (refinementNotes (st w)))])
          (pushed w).

Definition handleRefine (id : Z) (refinementText : Js.text) (w : world)
    : world :=
  if negb (Js.truthy (Js.trim refinementText)) then w
  else
    World (setError None (setLoading true (st w)))
          (inflight w ++ [In_handleRefine])
          (sent w ++ [Http.POST_refine_2d id refinementText])
          (pushed w).

Definition handleContinueToPrototype (imageId : Z) (w : world) : world :=
  World (st w) (inflight w) (sent w) (pushed w ++ [imageId]).

(** The rest of a handler, from the settled [fetch] on: [try] block,
    [catch] and [finally]. *)
Definition resume (fallback : string)
    (o : Http.outcome ConceptImage.t) (s : state) : state :=
  setLoading false
    match Http.try_json o with
    | inr data => setResults (fun prev => data :: prev) s
    | inl err => setError (Some (Http.message_or err fallback)) s
    end.

Definition fallback_of (p : pending) : string :=
  match p with
  | In_handleGenerate => "Failed to generate image"
  | In_handleRefine => "Failed to refine image"
  end.

Inductive event : Type :=
| Type_prompt (p : Js.text)
| Type_refinementNotes (n : Js.text)
| Click_generate
| Click_refine (id : Z) (refinementText : Js.text)
| Click_continue (id : Z)
| Settle (i : nat) (o : Http.outcome ConceptImage.t).

Definition step (e : event) (w : world) : world :=
  match e with
  | Type_prompt p =>
      World (setPrompt p (st w)) (inflight w) (sent w) (pushed w)
  | Type_refinementNotes n =>
      World (setRefinementNotes n (st w)) (inflight w) (sent w) (pushed w)
  | Click_generate =>
      (* disabled={loading || !prompt.trim()} *)
      if loading (st w) || negb (Js.truthy (Js.trim (prompt (st w))))
      then w else handleGenerate w
  | Click_refine id refinementText => handleRefine id refinementText w
  | Click_continue id => handleContinueToPrototype id w
  | Settle i o =>
      match inflight w !! i with
      | Some p =>
          World (resume (fallback_of p) o (st w))
                (delete i (inflight w)) (sent w) (pushed w)
      | None => w
      end
  end.

Definition run (es : list event) (w : world) : world :=
  foldl (fun w e => step e w) w es.

End TwoDPage.

(** ** Tier 2: [PrototypePage] *)

Module Prototype.
Record t : Type := Make {
  id : Z;
  name : option string;
  gif_url : option string;
  obj_url : option string
}.
End Prototype.

(** A query-string parameter, [searchParams.get(...)]: absent ([null]) or a
    string; it is truthy when present and not empty. *)
Definition param_truthy (p : option string) : bool :=
  match p with Some s => Js.truthy_string s | None => false end.

Module PrototypePage.

Record state : Type := State {
  image : option ConceptImage.t;
  prototype : option Prototype.t;
  loading : bool;
  error : option string
}.

Inductive pending : Type :=
| In_loadImage
| In_handleGeneratePrototype
| In_handleSaveToGallery.

Record world : Type := World {
  imageId : option string;
  st : state;
  inflight : list pending;
  sent : list Http.request;
  pushed : list string
}.

Definition setImage (i : option ConceptImage.t) (s : state) : state :=
  State i (prototype s) (loading s) (error s).
Definition setPrototype (p : option Prototype.t) (s : state) : state :=
  State (image s) p (loading s) (error s).
Definition setLoading (b : bool) (s : state) : state :=
  State (image s) (prototype s) b (error s).
Definition setError (e : option string) (s : state) : state :=
  State (image s) (prototype s) (loading s) e.

(** First render and the effect on [imageId]. *)
Definition mount (imageId : option string) : world :=
  match imageId with
  | Some i =>
      if Js.truthy_string i
      then World imageId (State None None false None)
                 [In_loadImage] [Http.GET_generate_2d i] []
      else World imageId (State None None false None) [] [] []
  | None => World imageId (State None None false None) [] [] []
  end.

Definition handleGeneratePrototype (w : world) : world :=
  match imageId w with
  | Some i =>
      if Js.truthy_string i
      then World (imageId w) (setError None (setLoading true (st w)))
                 (inflight w ++ [In_handleGeneratePrototype])
                 (sent w ++ [Http.POST_generate_shap_e i]) (pushed w)
      else w
  | None => w
  end.

Definition handleSaveToGallery (w : world) : world :=
  match prototype (st w) with
  | Some p =>
      World (imageId w) (st w) (inflight w ++ [In_handleSaveToGallery])
            (sent w ++ [Http.POST_gallery_save (Prototype.id p)
                          (Prototype.name p)])
            (pushed w)
  | None => w
  end.

Definition loadImage_resume (o : Http.outcome ConceptImage.t) (s : state)
    : state :=
  match Http.try_json o with
  | inr data => setImage (Some data) s
  | inl err => setError (Some (Http.message_or err "Failed to load image")) s
  end.

Definition handleGeneratePrototype_resume (o : Http.outcome Prototype.t)
    (s : state) : state :=
  setLoading false
    match Http.try_json o with
    | inr data => setPrototype (Some data) s
    | inl err =>
        setError (Some (Http.message_or err "Failed to generate prototype")) s
    end.

Inductive settled : Type :=
| Image_settled (o : Http.outcome ConceptImage.t)
| Prototype_settled (o : Http.outcome Prototype.t)
| Save_settled (o : Http.outcome unit).

Inductive event : Type :=
| Click_generatePrototype
| Click_saveToGallery
| Settle (i : nat) (r : settled).

Definition step (e : event) (w : world) : world :=
  match e with
  | Click_generatePrototype =>
      (* disabled={loading || !imageId} *)
      if loading (st w) || negb (param_truthy (imageId w)) then w
      else handleGeneratePrototype w
  | Click_saveToGallery => handleSaveToGallery w
  | Settle i r =>
      match inflight w !! i, r with
      | Some In_loadImage, Image_settled o =>
          World (imageId w) (loadImage_resume o (st w))
                (delete i (inflight w)) (sent w) (pushed w)
      | Some In_handleGeneratePrototype, Prototype_settled o =>
          World (imageId w) (handleGeneratePrototype_resume o (st w))
                (delete i (inflight w)) (sent w) (pushed w)
      | Some In_handleSaveToGallery, Save_settled (Http.Resolved _) =>
          World (imageId w) (st w) (delete i (inflight w)) (sent w)
                (pushed w ++ ["/gallery"%string])
      | Some In_handleSaveToGallery, Save_settled (Http.Rejected _) =>
          World (imageId w) (st w) (delete i (inflight w)) (sent w)
                (pushed w)
      | _, _ => w
      end
  end.

End PrototypePage.

(** ** The gallery: [GalleryPage] *)

Module GalleryItem.
Record t : Type := Make {
  id : Z;
  name : option string;
  prompt : option Js.text;
  gif_url : option string
}.
End GalleryItem.

Module GalleryPage.

Record state : Type := State {
  items : list GalleryItem.t;
  loading : bool
}.

(** [handleDelete] keeps its argument [id] across the [await].  In the
    world, [pushed] lists the ids [handleGenerateFinal] navigated to
    ([/final?prototypeId=id]). *)
Inductive pending : Type :=
| In_load
| In_handleDelete (id : Z).

Record world : Type := World {
  st : state;
  inflight : list pending;
  sent : list Http.request;
  pushed : list Z
}.

Definition setItems (f : list GalleryItem.t -> list GalleryItem.t)
    (s : state) : state :=
  State (f (items s)) (loading s).
Definition setLoading (b : bool) (s : state) : state := State (items s) b.

(** First render and the effect that loads the list. *)
Definition mount : world :=
  World (State [] true) [In_load] [Http.GET_gallery] [].

(** The body of the list response, [data.items] being optional. *)
Record listing : Type := Listing { listing_items : option (list GalleryItem.t) }.

Definition load_resume (o : Http.outcome listing) (s : state) : state :=
  setLoading false
    match o with
    | Http.Rejected _ => s
    | Http.Resolved res =>
        match Http.json res with
        | inr data => setItems (fun _ => default [] (listing_items data)) s
        | inl _ => s
        end
    end.

Definition handleDelete (id : Z) (w : world) : world :=
  World (st w) (inflight w ++ [In_handleDelete id])
        (sent w ++ [Http.DELETE_gallery id]) (pushed w).

(** After [await fetch(...)]: the response is not looked at, and
    [prev.filter((i) => i.id !== id)] replaces the list. *)
Definition handleDelete_resume (id : Z) (o : Http.outcome unit) (s : state)
    : state :=
  match o with
  | Http.Resolved _ => setItems (λ prev, filter (λ i, GalleryItem.id i ≠ id) prev) s
  | Http.Rejected _ => s
  end.

Definition handleGenerateFinal (id : Z) (w : world) : world :=
  World (st w) (inflight w) (sent w) (pushed w ++ [id]).

Inductive settled : Type :=
| Load_settled (o : Http.outcome listing)
| Delete_settled (o : Http.outcome unit).

Inductive event : Type :=
| Click_delete (id : Z)
| Click_generateFinal (id : Z)
| Settle (i : nat) (r : settled).

Definition step (e : event) (w : world) : world :=
  match e with
  | Click_delete id => handleDelete id w
  | Click_generateFinal id => handleGenerateFinal id w
  | Settle i r =>
      match inflight w !! i, r with
      | Some In_load, Load_settled o =>
          World (load_resume o (st w)) (delete i (inflight w)) (sent w)
                (pushed w)
      | Some (In_handleDelete id), Delete_settled o =>
          World (handleDelete_resume id o (st w)) (delete i (inflight w))
                (sent w) (pushed w)
      | _, _ => w
      end
  end.

Definition run (es : list event) (w : world) : world :=
  foldl (fun w e => step e w) w es.

End GalleryPage.

(** ** Tier 3: [FinalPage] *)

Module Task.
Record t : Type := Make {
  task_id : option string;
  gallery_item_id : option Z;
  status : string;
  progress : option Z;
  error_message : option string
}.

(** [data.status === "SUCCEEDED" || data.status === "FAILED"] *)
Definition terminal (data : t) : bool :=
  String.eqb (status data) "SUCCEEDED" || String.eqb (status data) "FAILED".

(** [task.progress ?? 0], the progress the page shows. *)
Definition shown_progress (data : t) : Z := default 0 (progress data).
End Task.

Module FinalModel.
Record t : Type := Make {
  obj_url : option string;
  fbx_url : option string;
  texture_url : option string
}.
End FinalModel.

Module FinalPage.

Record state : Type := State {
  task : option Task.t;
  model : option FinalModel.t;
  loading : bool;
  error : option string
}.

(** A poll callback keeps the handle of the interval it was started from
    and the [task_id] of that effect run. *)
Inductive pending : Type :=
| In_startTask
| In_poll (handle : nat) (task_id : string)
| In_loadModel.

(** [interval] is the live [setInterval] timer, with the [task_id] its
    callback closes over; [handles] is the next fresh handle. *)
Record world : Type := World {
  prototypeId : option string;
  st : state;
  interval : option (nat * string);
  handles : nat;
  inflight : list pending;
  sent : list Http.request
}.

Definition setTask (t : option Task.t) (s : state) : state :=
  State t (model s) (loading s) (error s).
Definition setModel (m : option FinalModel.t) (s : state) : state :=
  State (task s) m (loading s) (error s).
Definition setLoading (b : bool) (s : state) : state :=
  State (task s) (model s) b (error s).
Definition setError (e : option string) (s : state) : state :=
  State (task s) (model s) (loading s) e.

Definition with_st (s : state) (w : world) : world :=
  World (prototypeId w) s (interval w) (handles w) (inflight w) (sent w).
Definition with_interval (i : option (nat * string)) (w : world) : world :=
  World (prototypeId w) (st w) i (handles w) (inflight w) (sent w).
Definition with_inflight (l : list pending) (w : world) : world :=
  World (prototypeId w) (st w) (interval w) (handles w) l (sent w).

(** [fetch(...)] up to its [await]: the request leaves, the caller is
    suspended. *)
Definition fetch (req : Http.request) (p : pending) (w : world) : world :=
  World (prototypeId w) (st w) (interval w) (handles w)
        (inflight w ++ [p]) (sent w ++ [req]).

(** The dependencies of the two effects: [task?.task_id], and
    [task?.gallery_item_id] with [task?.status]. *)
Definition dep_task_id (s : state) : option string :=
  task s ≫= Task.task_id.
Definition dep_gallery_item_id (s : state) : option Z :=
  task s ≫= Task.gallery_item_id.
Definition dep_status (s : state) : option string :=
  Task.status <$> task s.

Definition clearInterval (h : nat) (w : world) : world :=
  match interval w with
  | Some (h', _) => if Nat.eqb h h' then with_interval None w else w
  | None => w
  end.

(** [setInterval(async () => ..., 5000)] *)
Definition setInterval (task_id : string) (w : world) : world :=
  World (prototypeId w) (st w) (Some (handles w, task_id)) (S (handles w))
        (inflight w) (sent w).

(** The polling effect, run after a render whose [task?.task_id] differs
    from the previous one: the cleanup of the previous run clears its
    interval, then a new interval starts if the new [task_id] is truthy. *)
Definition poll_effect (before : state) (w : world) : world :=
  if decide (dep_task_id before = dep_task_id (st w)) then w
  else
    let w' := with_interval None w in
    match dep_task_id (st w) with
    | Some tid => if Js.truthy_string tid then setInterval tid w' else w'
    | None => w'
    end.

(** The effect that loads the final model, run after a render whose
    [task?.gallery_item_id] or [task?.status] differs from the previous
    one; it returns at once when [gallery_item_id] is falsy. *)
Definition model_effect (before : state) (w : world) : world :=
  if decide (dep_gallery_item_id before = dep_gallery_item_id (st w)
             ∧ dep_status before = dep_status (st w)) then w
  else
    match dep_gallery_item_id (st w) with
    | Some g =>
        if g =? 0 then w else fetch (Http.GET_generate_meshy g) In_loadModel w
    | None => w
    end.

(** The effects after a render, given the state of the previous one.  In
    this module a render follows every settled response at once, as when
    responses are far enough apart for each to be rendered before the next
    event; [Scheduled] below lets renders come later. *)
Definition commit (before : state) (w : world) : world :=
  model_effect before (poll_effect before w).

Definition mount (prototypeId : option string) : world :=
  World prototypeId (State None None false None) None 0%nat [] [].

Definition startTask (w : world) : world :=
  match prototypeId w with
  | Some p =>
      if Js.truthy_string p
      then fetch (Http.POST_generate_meshy p) In_startTask
                 (with_st (setError None (setLoading true (st w))) w)
      else w
  | None => w
  end.

Definition startTask_resume (o : Http.outcome Task.t) (w : world) : world :=
  commit (st w)
    (with_st
       (setLoading false
          match Http.try_json o with
          | inr data => setTask (Some data) (st w)
          | inl err =>
              setError (Some (Http.message_or err "Failed to start Meshy task"))
                       (st w)
          end) w).

(** The interval fires: the callback runs up to [await fetch(...)]. *)
Definition tick (w : world) : world :=
  match interval w with
  | Some (h, tid) => fetch (Http.GET_generate_meshy_task tid) (In_poll h tid) w
  | None => w
  end.

(** The rest of the interval callback. *)
Definition poll_resume (h : nat) (o : Http.outcome Task.t) (w : world)
    : world :=
  match o with
  | Http.Rejected _ => w
  | Http.Resolved res =>
      if negb (Http.ok res) then w
      else
        match Http.json res with
        | inl _ => w
        | inr data =>
            let w1 := with_st (setTask (Some data) (st w)) w in
            commit (st w)
              (if Task.terminal data then clearInterval h w1 else w1)
        end
  end.

Definition loadModel_resume (o : Http.outcome FinalModel.t) (w : world)
    : world :=
  match o with
  | Http.Rejected _ => w
  | Http.Resolved res =>
      if Http.ok res then
        match Http.json res with
        | inr data => commit (st w) (with_st (setModel (Some data) (st w)) w)
        | inl _ => w
        end
      else w
  end.

Inductive settled : Type :=
| Task_settled (o : Http.outcome Task.t)
| Model_settled (o : Http.outcome FinalModel.t).

Inductive event : Type :=
| Click_start
| Tick
| Settle (i : nat) (r : settled).

Definition step (e : event) (w : world) : world :=
  match e with
  | Click_start =>
      (* disabled={loading || !prototypeId} *)
      if loading (st w) || negb (param_truthy (prototypeId w)) then w
      else startTask w
  | Tick => tick w
  | Settle i r =>
      match inflight w !! i, r with
      | Some In_startTask, Task_settled o =>
          startTask_resume o (with_inflight (delete i (inflight w)) w)
      | Some (In_poll h _), Task_settled o =>
          poll_resume h o (with_inflight (delete i (inflight w)) w)
      | Some In_loadModel, Model_settled o =>
          loadModel_resume o (with_inflight (delete i (inflight w)) w)
      | _, _ => w
      end
  end.

Definition run (es : list event) (w : world) : world :=
  foldl (fun w e => step e w) w es.

(** A poll whose response arrives, with status 2xx and body [data], before
    anything else happens; and a sequence of such polls, with the progress
    the page shows after each of them. *)
Definition poll_ok (data : Task.t) (w : world) : world :=
  step (Settle (length (inflight w)) (Task_settled (Http.ok_with data)))
       (step Tick w).

Definition recorded_progress (s : state) : Z :=
  default 0 (Task.shown_progress <$> task s).

Fixpoint progress_after_polls (ds : list Task.t) (w : world) : list Z :=
  match ds with
  | [] => []
  | d :: ds' =>
      recorded_progress (st (poll_ok d w))
      :: progress_after_polls ds' (poll_ok d w)
  end.

(** The requests whose answer is recorded as the job: the start and the
    polls. *)
Definition adopts (p : pending) : bool :=
  match p with
  | In_startTask | In_poll _ _ => true
  | In_loadModel => false
  end.

(** The requests for the final model among the requests sent. *)
Definition is_model_request (r : Http.request) : bool :=
  match r with Http.GET_generate_meshy _ => true | _ => false end.

Definition model_requests (w : world) : list Http.request :=
  List.filter is_model_request (sent w).

(** The start requests among the pending ones. *)
Definition is_start (p : pending) : bool :=
  match p with In_startTask => true | In_poll _ _ | In_loadModel => false end.

Definition starts_in_flight (w : world) : nat :=
  length (List.filter is_start (inflight w)).

End FinalPage.

(** ** [FinalPage] with renders as events of their own

    In [FinalPage.step] every settled response is rendered, and the effects
    run, before the next event: the page as it behaves when events are far
    enough apart.  React itself only promises that an update made after an
    [await] is rendered some time later: several responses can be adopted
    between two renders, and an effect then sees only the difference
    between one render and the next.  Here the callbacks only update the
    state, and a render, with the effects it triggers, is an event that can
    come after any number of them. *)

Module Scheduled.

(** [page] is the page as the handlers and callbacks have left it;
    [rendered] is the state of the last render, the one the effects last
    compared their dependencies against and the one the button shows. *)
Record world : Type := World {
  page : FinalPage.world;
  rendered : FinalPage.state
}.

Definition mount (prototypeId : option string) : world :=
  World (FinalPage.mount prototypeId)
        (FinalPage.st (FinalPage.mount prototypeId)).

(** The rest of [startTask] after its [await]: [setTask] or [setError],
    then [setLoading(false)]. *)
Definition startTask_settled (o : Http.outcome Task.t) (w : FinalPage.world)
    : FinalPage.world :=
  FinalPage.with_st
    (FinalPage.setLoading false
       match Http.try_json o with
       | inr data => FinalPage.setTask (Some data) (FinalPage.st w)
       | inl err =>
           FinalPage.setError
             (Some (Http.message_or err "Failed to start Meshy task"))
             (FinalPage.st w)
       end) w.

(** The rest of the interval callback: [setTask(data)], and
    [clearInterval(interval)] on a terminal status. *)
Definition poll_settled (h : nat) (o : Http.outcome Task.t)
    (w : FinalPage.world) : FinalPage.world :=
  match o with
  | Http.Rejected _ => w
  | Http.Resolved res =>
      if negb (Http.ok res) then w
      else
        match Http.json res with
        | inl _ => w
        | inr data =>
            let w1 :=
              FinalPage.with_st
                (FinalPage.setTask (Some data) (FinalPage.st w)) w in
            if Task.terminal data then FinalPage.clearInterval h w1 else w1
        end
  end.

(** The rest of the model fetch: [if (res.ok) setModel(await res.json())]. *)
Definition loadModel_settled (o : Http.outcome FinalModel.t)
    (w : FinalPage.world) : FinalPage.world :=
  match o with
  | Http.Rejected _ => w
  | Http.Resolved res =>
      if Http.ok res then
        match Http.json res with
        | inr data =>
            FinalPage.with_st
              (FinalPage.setModel (Some data) (FinalPage.st w)) w
        | inl _ => w
        end
      else w
  end.

(** A render: the two effects compare their dependencies in the state
    being rendered with those of the previous render. *)
Definition render (w : world) : world :=
  World (FinalPage.commit (rendered w) (page w)) (FinalPage.st (page w)).

Inductive event : Type :=
| Click_start
| Tick
| Settle (i : nat) (r : FinalPage.settled)
| Render.

Definition step (e : event) (w : world) : world :=
  match e with
  | Click_start =>
      (* disabled={loading || !prototypeId}, as last rendered *)
      if FinalPage.loading (rendered w)
         || negb (param_truthy (FinalPage.prototypeId (page w)))
      then w
      else World (FinalPage.startTask (page w)) (rendered w)
  | Tick => World (FinalPage.tick (page w)) (rendered w)
  | Settle i r =>
      let rest :=
        FinalPage.with_inflight (delete i (FinalPage.inflight (page w)))
                                (page w) in
      match FinalPage.inflight (page w) !! i, r with
      | Some FinalPage.In_startTask, FinalPage.Task_settled o =>
          World (startTask_settled o rest) (rendered w)
      | Some (FinalPage.In_poll h _), FinalPage.Task_settled o =>
          World (poll_settled h o rest) (rendered w)
      | Some FinalPage.In_loadModel, FinalPage.Model_settled o =>
          World (loadModel_settled o rest) (rendered w)
      | _, _ => w
      end
  | Render => render w
  end.

Definition run (es : list event) (w : world) : world :=
  foldl (fun w e => step e w) w es.

(** The requests for the final model sent so far. *)
Definition model_requests (w : world) : list Http.request :=
  FinalPage.model_requests (page w).

(** The event of [FinalPage] an event other than a render stands for. *)
Definition eager (e : FinalPage.event) : event :=
  match e with
  | FinalPage.Click_start => Click_start
  | FinalPage.Tick => Tick
  | FinalPage.Settle i r => Settle i r
  end.

End Scheduled.


(** ** The coordinator behind the HTTP surface

    The pages only call the coordinator; its code is not part of the front
    end.  The operations the pages reach through [POST /generate/meshy] and
    [DELETE /gallery/{id}] are modelled here from the specification. *)

Module Backend.

(** Modelled from the spec: the four job states of section 4.3 (the
    coordinator itself is not among the page sources). *)
Inductive job_status : Type := PENDING | IN_PROGRESS | SUCCEEDED | FAILED.

(** Modelled from the spec: [SUCCEEDED] and [FAILED] are terminal. *)
Definition terminal (s : job_status) : bool :=
  match s with
  | SUCCEEDED | FAILED => true
  | PENDING | IN_PROGRESS => false
  end.

(** Modelled from the spec: the ConceptImage entity of section 3. *)
Record conceptImage : Type := ConceptImage {
  image_id : Z;
  image_prompt : Js.text;
  refinementNotes : option Js.text;
  imageUrl : string;
  image_name : string;
  parentImageId : option Z
}.

(** Modelled from the spec: the Prototype entity of section 3. *)
Record prototype : Type := Prototype {
  prototype_id : Z;
  sourceImageId : Z;
  prototype_gifUrl : option string;
  objUrl : option string;
  prototype_name : string
}.

(** Modelled from the spec: the GalleryItem entity of section 3. *)
Record galleryItem : Type := GalleryItem {
  item_id : Z;
  prototypeId : Z;
  item_name : string;
  assetType : string;
  item_status : string;
  gifUrl : option string
}.

(** Modelled from the spec: the FinalizationJob entity of section 3. *)
Record finalizationJob : Type := FinalizationJob {
  taskId : string;
  galleryItemId : Z;
  status : job_status;
  progress : Z;
  errorMessage : option string
}.

(** Modelled from the spec: the Asset Registry of section 4.1, a key-value
    store keyed by entity id per entity type. *)
Record registry : Type := Registry {
  images : gmap Z conceptImage;
  prototypes : gmap Z prototype;
  gallery : gmap Z galleryItem;
  jobs : gmap string finalizationJob
}.

(** Modelled from the spec: the error taxonomy of section 7, as far as the
    two operations below raise it. *)
Inductive error : Type :=
| ValidationError
| NotFoundError
| ConflictError
| ExternalServiceError.

(** Modelled from the spec: the jobs recorded for a GalleryItem. *)
Definition jobs_of (g : Z) (reg : registry) : gmap string finalizationJob :=
  filter (λ kv, galleryItemId kv.2 = g) (jobs reg).

(** Modelled from the spec: the live (non-terminal) jobs of a GalleryItem,
    of which section 3 allows at most one. *)
Definition live_jobs_of (g : Z) (reg : registry)
    : gmap string finalizationJob :=
  filter (λ kv, galleryItemId kv.2 = g ∧ terminal (status kv.2) = false)
         (jobs reg).

(** Modelled from the spec: the GalleryItem a FinalizationJob may be
    created for "must exist and be completed/prototype" (section 3): its
    status is [completed] and its asset type [prototype]. *)
Definition finalizable (item : galleryItem) : bool :=
  String.eqb (item_status item) "completed"
  && String.eqb (assetType item) "prototype".

(** Modelled from the spec: "generate final model" of section 4.4.  The
    gallery item id must resolve ([NotFoundError]).  The item must be
    completed/prototype (sections 2 and 3) and must have no live job
    (section 4.3); either precondition violated is a [ConflictError], the
    error of section 7 for a violated precondition and the only other
    failure section 4.4 lists for this operation.  Otherwise the job is
    created [PENDING] with progress 0 under the [taskId] the external
    service returned. *)
Definition start_finalization (g : Z) (tid : string) (reg : registry)
    : registry * (error + finalizationJob) :=
  match gallery reg !! g with
  | None => (reg, inl NotFoundError)
  | Some item =>
      if finalizable item && bool_decide (live_jobs_of g reg = ∅) then
        let job := FinalizationJob tid g PENDING 0 None in
        (Registry (images reg) (prototypes reg) (gallery reg)
                  (<[tid := job]> (jobs reg)),
         inr job)
      else (reg, inl ConflictError)
  end.

(** Modelled from the spec: [delete(galleryItemId)] of section 4.1 removes
    only the GalleryItem row and returns [NotFoundError] if it is absent. *)
Definition delete_gallery_item (g : Z) (reg : registry)
    : registry * (error + unit) :=
  match gallery reg !! g with
  | None => (reg, inl NotFoundError)
  | Some _ =>
      (Registry (images reg) (prototypes reg) (delete g (gallery reg))
                (jobs reg),
       inr tt)
  end.

(** Modelled from the spec: section 6, an error is answered with a non-2xx
    status and the error as the body text (the codes are the usual ones of
    the error kinds; the pages only look at [res.ok]). *)
Definition http_status (e : error) : Z :=
  match e with
  | ValidationError => 422
  | NotFoundError => 404
  | ConflictError => 409
  | ExternalServiceError => 502
  end.

(** Modelled from the spec: the body of an error response names the
    error. *)
Definition body_text (e : error) : string :=
  match e with
  | ValidationError => "ValidationError"
  | NotFoundError => "NotFoundError"
  | ConflictError => "ConflictError"
  | ExternalServiceError => "ExternalServiceError"
  end.

(** Modelled from the spec: the HTTP answer to an operation's result. *)
Definition respond {A B : Type} (encode : A -> B) (r : error + A)
    : Http.outcome B :=
  match r with
  | inl e => Http.failed_with (http_status e) (body_text e)
  | inr a => Http.ok_with (encode a)
  end.

(** Modelled from the spec: section 6 fixes neither the status code nor
    the body text of an error answer, only that the status is not 2xx and
    that the body reaches the caller as it is; here both are parameters. *)
Definition respond_with (status_of : error -> Z) (body_of : error -> string)
    {A B : Type} (encode : A -> B) (r : error + A) : Http.outcome B :=
  match r with
  | inl e => Http.failed_with (status_of e) (body_of e)
  | inr a => Http.ok_with (encode a)
  end.

(** Modelled from the spec: the status as it is written in a snapshot. *)
Definition status_name (s : job_status) : string :=
  match s with
  | PENDING => "PENDING"
  | IN_PROGRESS => "IN_PROGRESS"
  | SUCCEEDED => "SUCCEEDED"
  | FAILED => "FAILED"
  end.

(** Modelled from the spec: the FinalizationJob snapshot of section 6, with
    the field names the final page reads. *)
Definition snapshot (j : finalizationJob) : Task.t :=
  Task.Make (Some (taskId j)) (Some (galleryItemId j))
            (status_name (status j)) (Some (progress j)) (errorMessage j).

End Backend.

(** ** Pages and coordinator together *)

Module System.

(** The button of the final page is clicked and the coordinator answers the
    request at once.  [Number] is JavaScript's conversion of the query-string
    text to a number; [tid] is the task id the external service hands out;
    [status_of] and [body_of] give the status code and the body text of the
    coordinator's error answers. *)
Definition start_round (Number : string -> Z)
    (status_of : Backend.error -> Z) (body_of : Backend.error -> string)
    (tid : string) (s : Backend.registry * FinalPage.world)
    : Backend.registry * FinalPage.world :=
  let w := s.2 in
  match FinalPage.prototypeId w with
  | Some p =>
      if FinalPage.loading (FinalPage.st w) || negb (Js.truthy_string p)
      then s
      else
        let r := Backend.start_finalization (Number p) tid s.1 in
        (r.1,
         FinalPage.step
           (FinalPage.Settle (length (FinalPage.inflight w))
              (FinalPage.Task_settled
                 (Backend.respond_with status_of body_of
                    Backend.snapshot r.2)))
           (FinalPage.step FinalPage.Click_start w))
  | None => s
  end.

(** The delete button of a gallery card is clicked and the coordinator
    answers the request at once. *)
Definition delete_round (id : Z) (s : Backend.registry * GalleryPage.world)
    : Backend.registry * GalleryPage.world :=
  let w := s.2 in
  let r := Backend.delete_gallery_item id s.1 in
  (r.1,
   GalleryPage.step
     (GalleryPage.Settle (length (GalleryPage.inflight w))
        (GalleryPage.Delete_settled (Backend.respond (λ u : unit, u) r.2)))
     (GalleryPage.step (GalleryPage.Click_delete id) w)).

End System.


(** * Properties *)

(** ** Trimming *)

Lemma trimStart_nil_iff (s : Js.text) :
  Js.trimStart s = [] ↔ Js.blank s = true.
Proof.
  induction s as [|c s IH]; simpl; [done|].
  destruct (Js.is_white_space c); simpl; [exact IH|].
  split; discriminate.
Qed.

Lemma blank_trimStart (s : Js.text) :
  Js.blank (Js.trimStart s) = Js.blank s.
Proof.
  induction s as [|c s IH]; simpl; [done|].
  destruct (Js.is_white_space c) eqn:Hc; simpl; [exact IH|].
  by rewrite Hc.
Qed.

Lemma blank_app (s t : Js.text) :
  Js.blank (s ++ t) = Js.blank s && Js.blank t.
Proof. apply forallb_app. Qed.

Lemma blank_reverse (s : Js.text) : Js.blank (reverse s) = Js.blank s.
Proof.
  induction s as [|c s IH]; [done|].
  rewrite reverse_cons, blank_app, IH. simpl.
  rewrite andb_true_r. apply andb_comm.
Qed.

Lemma trim_nil_iff (s : Js.text) : Js.trim s = [] ↔ Js.blank s = true.
Proof.
  unfold Js.trim, Js.trimEnd.
  rewrite <- (blank_trimStart s), <- (blank_reverse (Js.trimStart s)).
  rewrite <- trimStart_nil_iff.
  split; intros H.
  - apply (f_equal reverse) in H. by rewrite reverse_involutive in H.
  - by rewrite H.
Qed.

Lemma truthy_trim (s : Js.text) :
  Js.truthy (Js.trim s) = negb (Js.blank s).
Proof.
  destruct (Js.blank s) eqn:Hb.
  - apply trim_nil_iff in Hb. by rewrite Hb.
  - destruct (Js.trim s) eqn:Ht; [|done].
    apply trim_nil_iff in Ht. congruence.
Qed.

(** ** Tier 1 *)

Lemma TwoDPage_resume_failure (fallback : string) (s : TwoDPage.state)
    (res : Http.response ConceptImage.t) (body : string) :
  Http.ok res = false → Http.text res = inr body →
  TwoDPage.resume fallback (Http.Resolved res) s
  = TwoDPage.setLoading false (TwoDPage.setError (Some body) s).
Proof.
  intros Hok Htext. unfold TwoDPage.resume. simpl. by rewrite Hok, Htext.
Qed.

Lemma TwoDPage_resume_success (fallback : string) (s : TwoDPage.state)
    (res : Http.response ConceptImage.t) (data : ConceptImage.t) :
  Http.ok res = true → Http.json res = inr data →
  TwoDPage.resume fallback (Http.Resolved res) s
  = TwoDPage.setLoading false (TwoDPage.setResults (cons data) s).
Proof.
  intros Hok Hjson. unfold TwoDPage.resume. simpl. by rewrite Hok, Hjson.
Qed.

(** No event of the page removes or rewrites a recorded image: the list
    before an event is a suffix of the list after it. *)
Lemma TwoDPage_results_grow (e : TwoDPage.event) (w : TwoDPage.world) :
  TwoDPage.results (TwoDPage.st w)
    `suffix_of` TwoDPage.results (TwoDPage.st (TwoDPage.step e w)).
Proof.
  destruct e as [p|n| |id t|id|i o]; simpl; try done.
  - destruct (_ || _); [done|]. unfold TwoDPage.handleGenerate.
    by destruct (negb _).
  - unfold TwoDPage.handleRefine. by destruct (negb _).
  - destruct (TwoDPage.inflight w !! i); [|done]. simpl.
    unfold TwoDPage.resume. destruct (Http.try_json o); simpl; [done|].
    by apply suffix_cons_r.
Qed.

Lemma TwoDPage_results_grow_run (es : list TwoDPage.event)
    (w : TwoDPage.world) :
  TwoDPage.results (TwoDPage.st w)
    `suffix_of` TwoDPage.results (TwoDPage.st (TwoDPage.run es w)).
Proof.
  revert w. induction es as [|e es IH]; intros w; [done|].
  simpl. etrans; [apply (TwoDPage_results_grow e)|apply IH].
Qed.

(** C6, as stated, fails: with a prompt of two spaces the handler returns
    and no error is recorded. *)
Lemma handleGenerate_blank_raises_nothing :
  let w := TwoDPage.World (TwoDPage.State [32%N; 32%N] [] false None []) [] [] [] in
  Js.blank (TwoDPage.prompt (TwoDPage.st w)) = true
  ∧ TwoDPage.error (TwoDPage.st (TwoDPage.handleGenerate w)) = None
  ∧ TwoDPage.error (TwoDPage.st (TwoDPage.step TwoDPage.Click_generate w)) = None.
Proof. by vm_compute. Qed.

(** C6 (amended): invoking generate-2D-concept with an empty or
    whitespace-only prompt returns at once and changes nothing: no request
    is issued, no result is recorded, and no error is raised either.  The
    same holds for a click on the button, which is disabled then. *)
Theorem handleGenerate_blank_is_silent (w : TwoDPage.world) :
  Js.blank (TwoDPage.prompt (TwoDPage.st w)) = true →
  TwoDPage.handleGenerate w = w
  ∧ TwoDPage.step TwoDPage.Click_generate w = w.
Proof.
  intros Hb. unfold TwoDPage.step, TwoDPage.handleGenerate.
  rewrite truthy_trim, Hb. simpl. by rewrite orb_true_r.
Qed.

Lemma handleGenerate_blank_is_silent_witness :
  let w := TwoDPage.World (TwoDPage.State [32%N; 9%N] [] false None []) [] [] [] in
  TwoDPage.handleGenerate w = w
  ∧ TwoDPage.step TwoDPage.Click_generate w = w.
Proof. apply handleGenerate_blank_is_silent. reflexivity. Defined.

(** C7: when the request of a refinement succeeds, the returned image is
    put in front of the recorded results; every image recorded before is
    still there, unchanged, one position further. *)
Theorem refine_adds_new_image (w : TwoDPage.world) (i : nat)
    (res : Http.response ConceptImage.t) (data : ConceptImage.t) :
  TwoDPage.inflight w !! i = Some TwoDPage.In_handleRefine →
  Http.ok res = true → Http.json res = inr data →
  let w' := TwoDPage.step (TwoDPage.Settle i (Http.Resolved res)) w in
  TwoDPage.results (TwoDPage.st w') = data :: TwoDPage.results (TwoDPage.st w)
  ∧ (∀ k x, TwoDPage.results (TwoDPage.st w) !! k = Some x →
            TwoDPage.results (TwoDPage.st w') !! S k = Some x)
  ∧ (∀ x, x ∈ TwoDPage.results (TwoDPage.st w) →
          x ∈ TwoDPage.results (TwoDPage.st w')).
Proof.
  intros Hi Hok Hjson. unfold TwoDPage.step. rewrite Hi.
  cbn [TwoDPage.st]. rewrite (TwoDPage_resume_success _ _ _ _ Hok Hjson).
  cbn.
  split; [done|]. split; [done|]. intros x Hx. by apply elem_of_cons; right.
Qed.

Lemma refine_adds_new_image_witness :
  let a := ConceptImage.Make 1 (Js.of_string "a red cube") None None in
  let b := ConceptImage.Make 2 (Js.of_string "a red cube") None None in
  let w := TwoDPage.handleRefine 1 (Js.of_string "shinier")
             (TwoDPage.World (TwoDPage.State [] [] false None [a]) [] [] []) in
  TwoDPage.results
    (TwoDPage.st (TwoDPage.step (TwoDPage.Settle 0 (Http.ok_with b)) w))
  = [b; a].
Proof.
  intros a b w.
  exact (proj1 (refine_adds_new_image w 0%nat
                  (Http.Response 200 (inl (Http.Thrown None)) (inr b)) b
                  eq_refl eq_refl eq_refl)).
Defined.

(** ** Tier 3 *)

Section final_page.
Import FinalPage.

Lemma poll_effect_st b w : st (poll_effect b w) = st w.
Proof.
  unfold poll_effect. case_decide; [done|].
  destruct (dep_task_id (st w)) as [tid|]; [|done].
  by destruct (Js.truthy_string tid).
Qed.

Lemma poll_effect_sent b w : sent (poll_effect b w) = sent w.
Proof.
  unfold poll_effect. case_decide; [done|].
  destruct (dep_task_id (st w)) as [tid|]; [|done].
  by destruct (Js.truthy_string tid).
Qed.

Lemma poll_effect_inflight b w : inflight (poll_effect b w) = inflight w.
Proof.
  unfold poll_effect. case_decide; [done|].
  destruct (dep_task_id (st w)) as [tid|]; [|done].
  by destruct (Js.truthy_string tid).
Qed.

Lemma poll_effect_same b w :
  dep_task_id b = dep_task_id (st w) → poll_effect b w = w.
Proof. intros H. unfold poll_effect. by rewrite decide_True. Qed.

Lemma model_effect_st b w : st (model_effect b w) = st w.
Proof.
  unfold model_effect. case_decide; [done|].
  destruct (dep_gallery_item_id (st w)) as [g|]; [|done].
  by destruct (g =? 0).
Qed.

Lemma model_effect_interval b w : interval (model_effect b w) = interval w.
Proof.
  unfold model_effect. case_decide; [done|].
  destruct (dep_gallery_item_id (st w)) as [g|]; [|done].
  by destruct (g =? 0).
Qed.

Lemma model_effect_same b w :
  dep_gallery_item_id b = dep_gallery_item_id (st w) →
  dep_status b = dep_status (st w) → model_effect b w = w.
Proof. intros H1 H2. unfold model_effect. by rewrite decide_True. Qed.

Lemma commit_st b w : st (commit b w) = st w.
Proof. unfold commit. by rewrite model_effect_st, poll_effect_st. Qed.

(** A render that leaves [task] as it was runs no effect. *)
Lemma commit_same_task b w : task b = task (st w) → commit b w = w.
Proof.
  intros H. unfold commit.
  rewrite poll_effect_same by (unfold dep_task_id; by rewrite H).
  apply model_effect_same; unfold dep_gallery_item_id, dep_status;
    by rewrite H.
Qed.

Lemma commit_interval_same b w :
  dep_task_id b = dep_task_id (st w) → interval (commit b w) = interval w.
Proof.
  intros H. unfold commit. by rewrite model_effect_interval, poll_effect_same.
Qed.

Lemma clearInterval_st h w : st (clearInterval h w) = st w.
Proof.
  unfold clearInterval. destruct (interval w) as [[h' t]|]; [|done].
  by destruct (Nat.eqb h h').
Qed.

Lemma clearInterval_sent h w : sent (clearInterval h w) = sent w.
Proof.
  unfold clearInterval. destruct (interval w) as [[h' t]|]; [|done].
  by destruct (Nat.eqb h h').
Qed.

Lemma clearInterval_inflight h w : inflight (clearInterval h w) = inflight w.
Proof.
  unfold clearInterval. destruct (interval w) as [[h' t]|]; [|done].
  by destruct (Nat.eqb h h').
Qed.

(** What a settled poll does: nothing on failure, adoption on success. *)
Lemma settle_poll (w : world) (i h : nat) (tid : string)
    (o : Http.outcome Task.t) :
  inflight w !! i = Some (In_poll h tid) →
  step (Settle i (Task_settled o)) w
  = poll_resume h o (with_inflight (delete i (inflight w)) w).
Proof. intros Hi. unfold step. by rewrite Hi. Qed.

Lemma poll_resume_failed (h : nat) (o : Http.outcome Task.t) (w : world) :
  Http.transport_failed o → poll_resume h o w = w.
Proof.
  destruct o as [err|res]; [done|]. simpl. intros Hok. by rewrite Hok.
Qed.

Lemma poll_resume_adopts (h : nat) (res : Http.response Task.t)
    (data : Task.t) (w : world) :
  Http.ok res = true → Http.json res = inr data →
  poll_resume h (Http.Resolved res) w
  = commit (st w)
      (let w1 := with_st (setTask (Some data) (st w)) w in
       if Task.terminal data then clearInterval h w1 else w1).
Proof. intros Hok Hjson. unfold poll_resume. by rewrite Hok, Hjson. Qed.

Lemma poll_resume_task (h : nat) (res : Http.response Task.t)
    (data : Task.t) (w : world) :
  Http.ok res = true → Http.json res = inr data →
  st (poll_resume h (Http.Resolved res) w) = setTask (Some data) (st w).
Proof.
  intros Hok Hjson. rewrite (poll_resume_adopts _ _ _ _ Hok Hjson).
  rewrite commit_st. cbv zeta. destruct (Task.terminal data); [|done].
  by rewrite clearInterval_st.
Qed.

End final_page.

Section final_page_claims.
Import FinalPage.

(** C3: a poll whose transport request fails (the fetch rejects, or the
    response is not 2xx) leaves the recorded job (status, progress and
    error message, with the rest of the page state) as it was, and leaves
    the interval as it was: a live interval stays live and its next tick
    polls the same task again. *)
Theorem failed_poll_changes_nothing (w : world) (i h : nat) (tid : string)
    (o : Http.outcome Task.t) :
  inflight w !! i = Some (In_poll h tid) →
  Http.transport_failed o →
  let w' := step (Settle i (Task_settled o)) w in
  st w' = st w ∧ interval w' = interval w ∧ sent w' = sent w
  ∧ (∀ h' tid', interval w = Some (h', tid') →
       interval (step Tick w') = Some (h', tid')
       ∧ sent (step Tick w') = sent w ++ [Http.GET_generate_meshy_task tid']).
Proof.
  intros Hi Ho w'. subst w'.
  rewrite (settle_poll _ _ _ _ _ Hi), (poll_resume_failed _ _ _ Ho).
  repeat split; try done.
  - simpl. unfold tick. simpl. by rewrite H.
  - simpl. unfold tick. simpl. by rewrite H.
Qed.

Lemma failed_poll_changes_nothing_witness :
  let t := Task.Make (Some "t1"%string) (Some 1) "IN_PROGRESS" (Some 40) None in
  let w := World (Some "1"%string) (State (Some t) None false None)
             (Some (0%nat, "t1"%string)) 1 [In_poll 0 "t1"] [] in
  let w' := step (Settle 0 (Task_settled (Http.failed_with 503 "busy"))) w in
  st w' = st w ∧ interval w' = interval w ∧ sent w' = sent w
  ∧ (∀ h' tid', interval w = Some (h', tid') →
       interval (step Tick w') = Some (h', tid')
       ∧ sent (step Tick w') = sent w ++ [Http.GET_generate_meshy_task tid']).
Proof.
  intros t w.
  apply (failed_poll_changes_nothing w 0%nat 0%nat "t1"
           (Http.failed_with 503 "busy")); reflexivity.
Defined.

(** C1, as stated, fails: a job is recorded at progress 40 and a
    non-terminal response reporting progress 10 arrives; it is not
    ignored, the recorded progress drops to 10. *)
Lemma lower_progress_is_adopted :
  let t s p := Task.Make (Some "t1"%string) (Some 1) s (Some p) None in
  let w :=
    run [Click_start; Settle 0 (Task_settled (Http.ok_with (t "PENDING" 0)));
         Tick; Settle 1 (Task_settled (Http.ok_with (t "IN_PROGRESS" 40)));
         Tick]
        (mount (Some "1"%string)) in
  let w' := step (Settle 2 (Task_settled (Http.ok_with (t "IN_PROGRESS" 10)))) w in
  Task.terminal (t "IN_PROGRESS" 10) = false
  ∧ recorded_progress (st w) = 40
  ∧ recorded_progress (st w') = 10
  ∧ st w' ≠ st w.
Proof. repeat split; try by vm_compute. Qed.

Lemma poll_ok_st (w : world) (h : nat) (tid : string) (d : Task.t) :
  interval w = Some (h, tid) →
  st (poll_ok d w) = setTask (Some d) (st w).
Proof.
  intros Hint. unfold poll_ok.
  change (step Tick w) with (tick w). unfold tick. rewrite Hint.
  erewrite settle_poll by (simpl; by apply list_lookup_middle).
  unfold Http.ok_with. by rewrite (poll_resume_task _ _ d).
Qed.

Lemma poll_ok_interval (w : world) (h : nat) (tid : string) (d : Task.t) :
  interval w = Some (h, tid) → dep_task_id (st w) = Some tid →
  Task.task_id d = Some tid → Task.terminal d = false →
  interval (poll_ok d w) = Some (h, tid).
Proof.
  intros Hint Hdep Hd Hterm. unfold poll_ok.
  change (step Tick w) with (tick w). unfold tick. rewrite Hint.
  erewrite settle_poll by (simpl; by apply list_lookup_middle).
  unfold Http.ok_with. rewrite (poll_resume_adopts _ _ d) by done.
  rewrite Hterm. cbv zeta.
  rewrite commit_interval_same; [done|].
  simpl. unfold dep_task_id in *. simpl. congruence.
Qed.

(** C1 (amended): for any sequence of successful poll responses applied to
    one job (snapshots of that job, none but the last terminal), each
    response is adopted as it is: the progress recorded after each poll is
    the progress that poll reported, whether lower than the one recorded
    before or not.  Recorded progress is thus non-decreasing exactly as far
    as the reported progress is. *)
Theorem polls_record_reported_progress (ds : list Task.t) (w : world)
    (h : nat) (tid : string) :
  interval w = Some (h, tid) →
  dep_task_id (st w) = Some tid →
  Forall (λ d, Task.task_id d = Some tid) ds →
  (∀ k d, ds !! k = Some d → (S k < length ds)%nat →
          Task.terminal d = false) →
  progress_after_polls ds w = Task.shown_progress <$> ds.
Proof.
  revert w. induction ds as [|d ds IH]; intros w Hint Hdep Hids Hterm; [done|].
  simpl. rewrite (poll_ok_st _ _ _ _ Hint). f_equal.
  destruct ds as [|d' ds]; [done|].
  inversion_clear Hids as [|? ? Hd Hids'].
  assert (Task.terminal d = false) as Hd0.
  { apply (Hterm 0%nat); [done|simpl; lia]. }
  apply IH; try done.
  - by apply poll_ok_interval.
  - rewrite (poll_ok_st _ _ _ _ Hint). unfold dep_task_id. simpl. done.
  - intros k x Hk Hlen. apply (Hterm (S k)); [done|simpl in *; lia].
Qed.

Lemma polls_record_reported_progress_witness :
  let t p := Task.Make (Some "t1"%string) (Some 1) "IN_PROGRESS" (Some p) None in
  let w := World (Some "1"%string) (State (Some (t 0)) None false None)
             (Some (0%nat, "t1"%string)) 1 [] [] in
  progress_after_polls [t 40; t 10; t 70] w = [40; 10; 70].
Proof.
  intros t w.
  apply (polls_record_reported_progress [t 40; t 10; t 70] w 0%nat "t1").
  - reflexivity.
  - reflexivity.
  - repeat constructor.
  - intros k d Hk _. destruct k as [|[|[|k]]]; simpl in Hk;
      try discriminate; injection Hk as <-; reflexivity.
Defined.

End final_page_claims.

Section final_page_terminal.
Import FinalPage.

Lemma loadModel_resume_frame (o : Http.outcome FinalModel.t) (w : world) :
  task (st (loadModel_resume o w)) = task (st w)
  ∧ interval (loadModel_resume o w) = interval w
  ∧ inflight (loadModel_resume o w) = inflight w
  ∧ sent (loadModel_resume o w) = sent w.
Proof.
  destruct o as [err|res]; [done|]. unfold loadModel_resume.
  destruct (Http.ok res); [|done]. destruct (Http.json res); [done|].
  by rewrite commit_same_task.
Qed.

(** X16: when a terminal response is adopted for the job being polled, the
    interval is cleared and no later tick issues a request. *)
Lemma terminal_adoption_stops_polling (w : world) (i h : nat) (tid : string)
    (res : Http.response Task.t) (data : Task.t) :
  inflight w !! i = Some (In_poll h tid) →
  (∀ h' t, interval w = Some (h', t) → h' = h) →
  Http.ok res = true → Http.json res = inr data →
  Task.terminal data = true →
  dep_task_id (st w) = Task.task_id data →
  let w' := step (Settle i (Task_settled (Http.Resolved res))) w in
  task (st w') = Some data ∧ interval w' = None ∧ step Tick w' = w'.
Proof.
  intros Hi Hh Hok Hjson Hterm Hdep w'. subst w'.
  rewrite (settle_poll _ _ _ _ _ Hi).
  assert (interval (poll_resume h (Http.Resolved res)
                      (with_inflight (delete i (inflight w)) w)) = None) as Hnone.
  { rewrite (poll_resume_adopts _ _ _ _ Hok Hjson), Hterm. cbv zeta.
    rewrite commit_interval_same.
    - unfold clearInterval. simpl.
      destruct (interval w) as [[h' t]|] eqn:Hint; [|done].
      rewrite (Hh h' t eq_refl), Nat.eqb_refl. done.
    - rewrite clearInterval_st. simpl. unfold dep_task_id in *. simpl. done. }
  split; [by rewrite (poll_resume_task _ _ _ _ Hok Hjson)|].
  split; [done|]. unfold step, tick. by rewrite Hnone.
Qed.

(** X17: with the interval cleared and no poll or start request pending,
    no tick and no settling request changes the recorded job any more. *)
Lemma quiescent_is_frozen (es : list event) (w : world) :
  interval w = None →
  Forall (λ p, p = In_loadModel) (inflight w) →
  Forall (λ e, e ≠ Click_start) es →
  task (st (run es w)) = task (st w) ∧ interval (run es w) = None
  ∧ sent (run es w) = sent w.
Proof.
  revert w. induction es as [|e es IH]; intros w Hint Hfl Hes; [done|].
  inversion_clear Hes as [|? ? He Hes'].
  assert (task (st (step e w)) = task (st w)
          ∧ interval (step e w) = None
          ∧ sent (step e w) = sent w
          ∧ Forall (λ p, p = In_loadModel) (inflight (step e w)))
    as (Ht & Hi & Hs & Hf).
  { destruct e as [| |i r]; [done| |].
    - simpl. unfold tick. by rewrite Hint.
    - simpl. destruct (inflight w !! i) as [p|] eqn:Hp; [|done].
      rewrite (proj1 (Forall_lookup _ _) Hfl _ _ Hp).
      destruct r as [o|o]; [done|].
      destruct (loadModel_resume_frame o
                  (with_inflight (delete i (inflight w)) w))
        as (-> & -> & -> & ->).
      simpl. repeat split; try done. by apply Forall_delete. }
  simpl. destruct (IH (step e w) Hi Hf Hes') as (-> & -> & ->). done.
Qed.

(** C4: the code at the failing input.  Two polls are in flight when the
    second is answered [SUCCEEDED]: the job is recorded as succeeded and the
    interval is cleared.  Then the first poll is answered [IN_PROGRESS]:
    the recorded job leaves the terminal status, and no interval is left
    to poll it again. *)
Theorem stale_poll_overwrites_terminal :
  let t s p := Task.Make (Some "t1"%string) (Some 1) s (Some p) None in
  let w :=
    run [Click_start; Settle 0 (Task_settled (Http.ok_with (t "PENDING" 0)));
         Tick; Tick;
         Settle 2 (Task_settled (Http.ok_with (t "SUCCEEDED" 100)))]
        (mount (Some "1"%string)) in
  let w' := step (Settle 1 (Task_settled (Http.ok_with (t "IN_PROGRESS" 40)))) w in
  task (st w) = Some (t "SUCCEEDED" 100) ∧ interval w = None
  ∧ task (st w') = Some (t "IN_PROGRESS" 40) ∧ interval w' = None.
Proof. repeat split; by vm_compute. Qed.

End final_page_terminal.

Section final_page_model.
Import FinalPage.

Lemma commit_sent (b : state) (w : world) :
  sent (commit b w)
  = sent w ++
    if decide (dep_gallery_item_id b = dep_gallery_item_id (st w)
               ∧ dep_status b = dep_status (st w)) then []
    else match dep_gallery_item_id (st w) with
         | Some g => if g =? 0 then [] else [Http.GET_generate_meshy g]
         | None => []
         end.
Proof.
  unfold commit, model_effect. rewrite poll_effect_st.
  case_decide; [by rewrite app_nil_r, poll_effect_sent|].
  destruct (dep_gallery_item_id (st w)) as [g|];
    [|by rewrite app_nil_r, poll_effect_sent].
  destruct (g =? 0); [by rewrite app_nil_r, poll_effect_sent|].
  simpl. by rewrite poll_effect_sent.
Qed.

Lemma adoption_sent (w : world) (i : nat) (p : pending)
    (res : Http.response Task.t) (data : Task.t) :
  inflight w !! i = Some p → adopts p = true →
  Http.ok res = true → Http.json res = inr data →
  sent (step (Settle i (Task_settled (Http.Resolved res))) w)
  = sent w ++
    if decide (dep_gallery_item_id (st w) = Task.gallery_item_id data
               ∧ dep_status (st w) = Some (Task.status data)) then []
    else match Task.gallery_item_id data with
         | Some g => if g =? 0 then [] else [Http.GET_generate_meshy g]
         | None => []
         end.
Proof.
  intros Hi Hp Hok Hjson. destruct p as [|h tid|]; [| |done].
  - unfold step. rewrite Hi. unfold startTask_resume.
    rewrite commit_sent. simpl. by rewrite Hok, Hjson.
  - rewrite (settle_poll _ _ _ _ _ Hi).
    rewrite (poll_resume_adopts _ _ _ _ Hok Hjson), commit_sent. cbv zeta.
    destruct (Task.terminal data);
      rewrite ?clearInterval_st, ?clearInterval_sent; done.
Qed.

(** A settled fetch of the final model touches neither the recorded job nor
    the requests sent, whatever its outcome. *)
Lemma settle_model_frame (w : world) (j : nat)
    (o : Http.outcome FinalModel.t) :
  inflight w !! j = Some In_loadModel →
  task (st (step (Settle j (Model_settled o)) w)) = task (st w)
  ∧ sent (step (Settle j (Model_settled o)) w) = sent w.
Proof.
  intros Hj. unfold step. rewrite Hj.
  destruct (loadModel_resume_frame o
              (with_inflight (delete j (inflight w)) w))
    as (-> & _ & _ & ->). done.
Qed.

(** In [FinalPage.step] each event is followed by a render: from a page
    whose last render is its current state, an event of [FinalPage] is the
    same event here followed by [Render]. *)
Lemma eager_schedule (e : event) (w : world) :
  Scheduled.step Scheduled.Render
    (Scheduled.step (Scheduled.eager e) (Scheduled.World w (st w)))
  = Scheduled.World (step e w) (st (step e w)).
Proof.
  destruct e as [| |i r]; cbn [Scheduled.eager Scheduled.step step
    Scheduled.rendered Scheduled.page].
  - destruct (loading (st w) || negb (param_truthy (prototypeId w))).
    + cbn. unfold Scheduled.render. cbn. by rewrite commit_same_task.
    + cbn. unfold Scheduled.render. cbn [Scheduled.rendered Scheduled.page].
      rewrite commit_same_task; [done|]. unfold startTask.
      destruct (prototypeId w) as [p|]; [|done].
      by destruct (Js.truthy_string p).
  - unfold Scheduled.render. cbn [Scheduled.rendered Scheduled.page].
    rewrite commit_same_task; [done|]. unfold tick.
    by destruct (interval w) as [[h tid]|].
  - destruct (inflight w !! i) as [p|];
      [|cbn; unfold Scheduled.render; cbn; by rewrite commit_same_task].
    destruct p as [|h tid|], r as [o|o];
      try (cbn; unfold Scheduled.render; cbn; by rewrite commit_same_task).
    + unfold Scheduled.render. cbn [Scheduled.rendered Scheduled.page].
      unfold Scheduled.startTask_settled, startTask_resume.
      by rewrite commit_st.
    + unfold Scheduled.render. cbn [Scheduled.rendered Scheduled.page].
      unfold Scheduled.poll_settled, poll_resume.
      destruct o as [err|res]; [by rewrite commit_same_task|].
      destruct (negb (Http.ok res)); [by rewrite commit_same_task|].
      destruct (Http.json res) as [err|data]; [by rewrite commit_same_task|].
      by rewrite commit_st.
    + unfold Scheduled.render. cbn [Scheduled.rendered Scheduled.page].
      unfold Scheduled.loadModel_settled, loadModel_resume.
      destruct o as [err|res]; [by rewrite commit_same_task|].
      destruct (Http.ok res); [|by rewrite commit_same_task].
      destruct (Http.json res) as [err|data]; [by rewrite commit_same_task|].
      by rewrite commit_st.
Qed.

(** What an adopted response leaves for the next render to compare. *)
Lemma settled_adoption (w : world) (i : nat) (p : pending)
    (res : Http.response Task.t) (data : Task.t) (r : state) :
  inflight w !! i = Some p → adopts p = true →
  Http.ok res = true → Http.json res = inr data →
  let w' := Scheduled.page
              (Scheduled.step
                 (Scheduled.Settle i (Task_settled (Http.Resolved res)))
                 (Scheduled.World w r)) in
  task (st w') = Some data ∧ sent w' = sent w.
Proof.
  intros Hi Hp Hok Hjson. cbn [Scheduled.step Scheduled.page].
  rewrite Hi. destruct p as [|h tid|]; [| |done].
  - cbn [Scheduled.page]. unfold Scheduled.startTask_settled.
    simpl Http.try_json. by rewrite Hok, Hjson.
  - cbn [Scheduled.page]. unfold Scheduled.poll_settled.
    rewrite Hok, Hjson. cbn [negb].
    destruct (Task.terminal data);
      by rewrite ?clearInterval_st, ?clearInterval_sent.
Qed.

(** C5, as stated, fails: with a render after each response, the final
    model is fetched at the render that first shows the job, with status
    [PENDING], and again at the render that shows [IN_PROGRESS]; by the
    render that shows [SUCCEEDED] three fetches have been issued, not
    one. *)
Lemma model_fetched_before_success :
  let t s p := Task.Make (Some "t1"%string) (Some 1) s (Some p) None in
  let es1 := [Scheduled.Click_start;
              Scheduled.Settle 0 (Task_settled (Http.ok_with (t "PENDING" 0)));
              Scheduled.Render] in
  let es2 := es1 ++
             [Scheduled.Tick;
              Scheduled.Settle 1
                (Task_settled (Http.ok_with (t "IN_PROGRESS" 40)));
              Scheduled.Render] in
  let es3 := es2 ++
             [Scheduled.Tick;
              Scheduled.Settle 2
                (Task_settled (Http.ok_with (t "SUCCEEDED" 100)));
              Scheduled.Render] in
  let w1 := Scheduled.run es1 (Scheduled.mount (Some "1"%string)) in
  let w2 := Scheduled.run es2 (Scheduled.mount (Some "1"%string)) in
  let w3 := Scheduled.run es3 (Scheduled.mount (Some "1"%string)) in
  dep_status (Scheduled.rendered w1) = Some "PENDING"%string
  ∧ Scheduled.model_requests w1 = [Http.GET_generate_meshy 1]
  ∧ dep_status (Scheduled.rendered w2) = Some "IN_PROGRESS"%string
  ∧ Scheduled.model_requests w2
    = [Http.GET_generate_meshy 1; Http.GET_generate_meshy 1]
  ∧ dep_status (Scheduled.rendered w3) = Some "SUCCEEDED"%string
  ∧ length (Scheduled.model_requests w3) = 3%nat.
Proof. vm_compute. by repeat split. Qed.

(** C5 (amended): the follow-up fetch of the final model is issued by a
    render, never by a response on its own, and it is tied to what differs
    between one render and the next, not to success alone.  The render
    after a response was adopted as the job (the answer to the start or to
    a poll) issues exactly one fetch for its [gallery_item_id] (present and
    not zero) when that id or the status differs from what the previous
    render showed: so one fetch at the render that first shows
    [SUCCEEDED], and one at each render that first shows the job or an
    earlier status.  A render that shows the same id and status as the
    previous one issues none, whatever was adopted in between.  Whatever
    the outcome of a fetch, failure included, the recorded job stays as it
    was, so a [SUCCEEDED] status is not reverted. *)
Theorem model_fetch_follows_rendered_changes (w : Scheduled.world) :
  (∀ e, e ≠ Scheduled.Render →
        Scheduled.model_requests (Scheduled.step e w)
        = Scheduled.model_requests w)
  ∧ (∀ (i : nat) (p : pending) (res : Http.response Task.t)
       (data : Task.t) (g : Z),
       inflight (Scheduled.page w) !! i = Some p → adopts p = true →
       Http.ok res = true → Http.json res = inr data →
       Task.gallery_item_id data = Some g → g ≠ 0 →
       ¬ (dep_gallery_item_id (Scheduled.rendered w) = Some g
          ∧ dep_status (Scheduled.rendered w) = Some (Task.status data)) →
       sent (Scheduled.page
               (Scheduled.run
                  [Scheduled.Settle i (Task_settled (Http.Resolved res));
                   Scheduled.Render] w))
       = sent (Scheduled.page w) ++ [Http.GET_generate_meshy g])
  ∧ (dep_gallery_item_id (Scheduled.rendered w)
     = dep_gallery_item_id (st (Scheduled.page w)) →
     dep_status (Scheduled.rendered w) = dep_status (st (Scheduled.page w)) →
     sent (Scheduled.page (Scheduled.step Scheduled.Render w))
     = sent (Scheduled.page w))
  ∧ (∀ (j : nat) (o : Http.outcome FinalModel.t),
       inflight (Scheduled.page w) !! j = Some In_loadModel →
       let w' := Scheduled.step (Scheduled.Settle j (Model_settled o)) w in
       task (st (Scheduled.page w')) = task (st (Scheduled.page w))
       ∧ Scheduled.rendered w' = Scheduled.rendered w
       ∧ sent (Scheduled.page w') = sent (Scheduled.page w)).
Proof.
  destruct w as [w r]. split; [|split; [|split]].
  - intros e He. unfold Scheduled.model_requests.
    destruct e as [| |i s|]; [| | |done];
      cbn [Scheduled.step Scheduled.page Scheduled.rendered].
    + destruct (_ || _); [done|]. cbn [Scheduled.page]. unfold startTask.
      destruct (prototypeId w) as [p|]; [|done].
      destruct (Js.truthy_string p); [|done].
      unfold model_requests, fetch. cbn [sent with_st].
      rewrite List.filter_app. cbn [List.filter is_model_request].
      by rewrite app_nil_r.
    + cbn [Scheduled.page]. unfold tick.
      destruct (interval w) as [[h tid]|]; [|done].
      unfold model_requests, fetch. cbn [sent].
      rewrite List.filter_app. cbn [List.filter is_model_request].
      by rewrite app_nil_r.
    + destruct (inflight w !! i) as [p|]; [|done].
      destruct p as [|h tid|], s as [o|o]; try reflexivity;
        cbn [Scheduled.page];
        apply (f_equal (List.filter is_model_request)).
      * unfold Scheduled.poll_settled. destruct o as [err|res]; [done|].
        destruct (negb (Http.ok res)); [done|].
        destruct (Http.json res) as [err|data]; [done|]. cbv zeta.
        by destruct (Task.terminal data); rewrite ?clearInterval_sent.
      * unfold Scheduled.loadModel_settled. destruct o as [err|res]; [done|].
        destruct (Http.ok res); [|done]. by destruct (Http.json res).
  - intros i p res data g Hi Hp Hok Hjson Hg Hg0 Hdiff.
    cbn [Scheduled.page Scheduled.rendered] in *.
    destruct (settled_adoption w i p res data r Hi Hp Hok Hjson)
      as [Htask Hsent].
    cbn [Scheduled.run foldl]. unfold Scheduled.step at 1.
    unfold Scheduled.render.
    assert (Scheduled.rendered
              (Scheduled.step
                 (Scheduled.Settle i (Task_settled (Http.Resolved res)))
                 (Scheduled.World w r)) = r) as ->.
    { cbn. rewrite Hi. by destruct p. }
    cbn [Scheduled.page]. rewrite commit_sent, Hsent.
    unfold dep_gallery_item_id, dep_status. rewrite Htask. cbn.
    rewrite Hg. rewrite decide_False by exact Hdiff.
    by rewrite (proj2 (Z.eqb_neq g 0) Hg0).
  - intros Hg Hs. cbn [Scheduled.step Scheduled.page Scheduled.rendered] in *.
    unfold Scheduled.render. cbn [Scheduled.page Scheduled.rendered].
    rewrite commit_sent. rewrite decide_True by done. by rewrite app_nil_r.
  - intros j o Hj. cbn [Scheduled.page] in Hj.
    cbn [Scheduled.step Scheduled.page Scheduled.rendered]. rewrite Hj.
    cbn [Scheduled.page Scheduled.rendered].
    unfold Scheduled.loadModel_settled. destruct o as [err|res]; [done|].
    destruct (Http.ok res); [|done]. by destruct (Http.json res).
Qed.

Lemma model_fetch_follows_rendered_changes_witness :
  let t s p := Task.Make (Some "t1"%string) (Some 1) s (Some p) None in
  let w := Scheduled.World
             (World (Some "1"%string)
                (State (Some (t "IN_PROGRESS" 40)) None false None)
                (Some (0%nat, "t1"%string)) 1 [In_poll 0 "t1"] [])
             (State (Some (t "IN_PROGRESS" 40)) None false None) in
  sent (Scheduled.page
          (Scheduled.run
             [Scheduled.Settle 0
                (Task_settled (Http.ok_with (t "SUCCEEDED" 100)));
              Scheduled.Render] w))
  = sent (Scheduled.page w) ++ [Http.GET_generate_meshy 1]
  ∧ sent (Scheduled.page (Scheduled.step Scheduled.Render w))
    = sent (Scheduled.page w).
Proof.
  intros t w.
  destruct (model_fetch_follows_rendered_changes w)
    as (_ & Hchange & Hsame & _).
  split.
  - apply (Hchange 0%nat (In_poll 0 "t1")
             (Http.Response 200 (inl (Http.Thrown None))
                (inr (t "SUCCEEDED" 100)))
             (t "SUCCEEDED" 100) 1); try reflexivity.
    + discriminate.
    + intros [_ Hstatus]. discriminate Hstatus.
  - apply Hsame; reflexivity.
Defined.

(** Responses adopted between two renders are seen by the effects only
    through the render that follows: a job last rendered [PENDING] whose
    two polls in flight are answered [IN_PROGRESS] and then [PENDING]
    before the next render has no fetch issued for it, while the same
    answers with a render in between have two. *)
Example responses_between_renders :
  let t s p := Task.Make (Some "t1"%string) (Some 1) s (Some p) None in
  let w := Scheduled.World
             (World (Some "1"%string)
                (State (Some (t "PENDING" 0)) None false None)
                (Some (0%nat, "t1"%string)) 1
                [In_poll 0 "t1"; In_poll 0 "t1"] [])
             (State (Some (t "PENDING" 0)) None false None) in
  let a := Scheduled.Settle 0 (Task_settled (Http.ok_with (t "IN_PROGRESS" 40))) in
  let b := Scheduled.Settle 0 (Task_settled (Http.ok_with (t "PENDING" 0))) in
  Scheduled.model_requests (Scheduled.run [a; b; Scheduled.Render] w) = []
  ∧ Scheduled.model_requests
      (Scheduled.run [a; Scheduled.Render; b; Scheduled.Render] w)
    = [Http.GET_generate_meshy 1; Http.GET_generate_meshy 1].
Proof. vm_compute. by repeat split. Qed.

End final_page_model.

(** ** Errors of the stage operations *)

(** The shared [try]/[catch]: a non-2xx response whose body reads [body]
    ends in the [catch] with [err.message] equal to [body]. *)
Lemma try_json_not_ok {A : Type} (res : Http.response A) (body : string)
    (fallback : string) :
  Http.ok res = false → Http.text res = inr body →
  ∃ err, Http.try_json (Http.Resolved res) = inl err
         ∧ Http.message_or err fallback = body.
Proof.
  intros Hok Htext. exists (Http.Error body). simpl.
  by rewrite Hok, Htext.
Qed.

(** C9: in each of the four stage operations (generate 2D, refine 2D,
    generate prototype, start finalization), a response that is not 2xx
    ends the operation with the raw body text as the error shown; what the
    page had recorded stays, and the request is not sent again: nothing is
    sent and nothing new is pending when the response settles. *)
Theorem non_2xx_surfaces_body_text :
  (∀ (w : TwoDPage.world) (i : nat) (p : TwoDPage.pending)
     (res : Http.response ConceptImage.t) (body : string),
     TwoDPage.inflight w !! i = Some p →
     Http.ok res = false → Http.text res = inr body →
     let w' := TwoDPage.step (TwoDPage.Settle i (Http.Resolved res)) w in
     TwoDPage.error (TwoDPage.st w') = Some body
     ∧ TwoDPage.results (TwoDPage.st w') = TwoDPage.results (TwoDPage.st w)
     ∧ TwoDPage.sent w' = TwoDPage.sent w
     ∧ TwoDPage.inflight w' = delete i (TwoDPage.inflight w))
  ∧ (∀ (w : PrototypePage.world) (i : nat)
       (res : Http.response Prototype.t) (body : string),
       PrototypePage.inflight w !! i
         = Some PrototypePage.In_handleGeneratePrototype →
       Http.ok res = false → Http.text res = inr body →
       let w' := PrototypePage.step
                   (PrototypePage.Settle i
                      (PrototypePage.Prototype_settled (Http.Resolved res))) w in
       PrototypePage.error (PrototypePage.st w') = Some body
       ∧ PrototypePage.prototype (PrototypePage.st w')
         = PrototypePage.prototype (PrototypePage.st w)
       ∧ PrototypePage.sent w' = PrototypePage.sent w
       ∧ PrototypePage.inflight w' = delete i (PrototypePage.inflight w))
  ∧ (∀ (w : FinalPage.world) (i : nat)
       (res : Http.response Task.t) (body : string),
       FinalPage.inflight w !! i = Some FinalPage.In_startTask →
       Http.ok res = false → Http.text res = inr body →
       let w' := FinalPage.step
                   (FinalPage.Settle i
                      (FinalPage.Task_settled (Http.Resolved res))) w in
       FinalPage.error (FinalPage.st w') = Some body
       ∧ FinalPage.task (FinalPage.st w') = FinalPage.task (FinalPage.st w)
       ∧ FinalPage.sent w' = FinalPage.sent w
       ∧ FinalPage.inflight w' = delete i (FinalPage.inflight w)).
Proof.
  split; [|split].
  - intros w i p res body Hi Hok Htext w'. subst w'.
    unfold TwoDPage.step. rewrite Hi. cbn [TwoDPage.st TwoDPage.sent
      TwoDPage.inflight].
    by rewrite (TwoDPage_resume_failure _ _ _ _ Hok Htext).
  - intros w i res body Hi Hok Htext w'. subst w'.
    unfold PrototypePage.step. rewrite Hi.
    unfold PrototypePage.handleGeneratePrototype_resume.
    destruct (try_json_not_ok res body "Failed to generate prototype"
                Hok Htext) as (err & -> & Hmsg).
    cbn. by rewrite Hmsg.
  - intros w i res body Hi Hok Htext w'. subst w'.
    unfold FinalPage.step. rewrite Hi. unfold FinalPage.startTask_resume.
    destruct (try_json_not_ok res body "Failed to start Meshy task"
                Hok Htext) as (err & -> & Hmsg).
    rewrite commit_same_task by done. cbn. by rewrite Hmsg.
Qed.

Lemma non_2xx_surfaces_body_text_witness :
  let w2d := TwoDPage.World
               (TwoDPage.State (Js.of_string "a red cube") [] true None [])
               [TwoDPage.In_handleGenerate] [] [] in
  let wproto := PrototypePage.World (Some "7"%string)
                  (PrototypePage.State None None true None)
                  [PrototypePage.In_handleGeneratePrototype] [] [] in
  let wfinal := FinalPage.World (Some "1"%string)
                  (FinalPage.State None None true None) None 0
                  [FinalPage.In_startTask] [] in
  TwoDPage.error
    (TwoDPage.st
       (TwoDPage.step
          (TwoDPage.Settle 0 (Http.failed_with 500 "generation failed")) w2d))
  = Some "generation failed"%string
  ∧ PrototypePage.error
      (PrototypePage.st
         (PrototypePage.step
            (PrototypePage.Settle 0
               (PrototypePage.Prototype_settled
                  (Http.failed_with 404 "image not found"))) wproto))
    = Some "image not found"%string
  ∧ FinalPage.error
      (FinalPage.st
         (FinalPage.step
            (FinalPage.Settle 0
               (FinalPage.Task_settled (Http.failed_with 409 "conflict")))
            wfinal))
    = Some "conflict"%string.
Proof.
  intros w2d wproto wfinal.
  destruct non_2xx_surfaces_body_text as (H2d & Hproto & Hfinal).
  split; [|split].
  - exact (proj1 (H2d w2d 0%nat TwoDPage.In_handleGenerate
                    (Http.Response 500 (inr "generation failed"%string)
                       (inl (Http.Thrown None)))
                    "generation failed"%string eq_refl eq_refl eq_refl)).
  - exact (proj1 (Hproto wproto 0%nat
                    (Http.Response 404 (inr "image not found"%string)
                       (inl (Http.Thrown None)))
                    "image not found"%string eq_refl eq_refl eq_refl)).
  - exact (proj1 (Hfinal wfinal 0%nat
                    (Http.Response 409 (inr "conflict"%string)
                       (inl (Http.Thrown None)))
                    "conflict"%string eq_refl eq_refl eq_refl)).
Defined.

(** ** The gallery *)

Section gallery.
Import GalleryPage.

Lemma settle_delete (w : world) (i : nat) (id : Z) (o : Http.outcome unit) :
  inflight w !! i = Some (In_handleDelete id) →
  step (Settle i (Delete_settled o)) w
  = World (handleDelete_resume id o (st w)) (delete i (inflight w)) (sent w)
          (pushed w).
Proof. intros Hi. unfold step. by rewrite Hi. Qed.

(** C10: once the DELETE request of [handleDelete] completes, with whatever
    status, the item with the given id is filtered out of the displayed
    list (the response is never inspected, so also when the server answers
    with an error); the list is left as it was when the request itself
    throws.  A completed request for an id on display always shortens the
    list. *)
Theorem handleDelete_ignores_status (w : world) (i : nat) (id : Z) :
  inflight w !! i = Some (In_handleDelete id) →
  (∀ res : Http.response unit,
     let w' := step (Settle i (Delete_settled (Http.Resolved res))) w in
     items (st w') = filter (λ x, GalleryItem.id x ≠ id) (items (st w))
     ∧ (∀ x, x ∈ items (st w') → GalleryItem.id x ≠ id)
     ∧ ((∃ x, x ∈ items (st w) ∧ GalleryItem.id x = id) →
        (length (items (st w')) < length (items (st w)))%nat))
  ∧ (∀ err : Http.exn,
       items (st (step (Settle i (Delete_settled (Http.Rejected err))) w))
       = items (st w)).
Proof.
  intros Hi. split.
  - intros res w'. subst w'. rewrite (settle_delete _ _ _ _ Hi). cbn.
    split; [done|]. split.
    + intros x Hx. by apply list_elem_of_filter in Hx as [? _].
    + intros (x & Hx & Hid). apply (length_filter_lt _ _ x); [done|].
      intros Hne. by apply Hne.
  - intros err. by rewrite (settle_delete _ _ _ _ Hi).
Qed.

Lemma handleDelete_ignores_status_witness :
  let a := GalleryItem.Make 1 (Some "cube"%string) None None in
  let b := GalleryItem.Make 2 (Some "sword"%string) None None in
  let w := World (State [a; b] false) [In_handleDelete 1]
                 [Http.DELETE_gallery 1] [] in
  items (st (step (Settle 0 (Delete_settled (Http.failed_with 404 "NotFoundError"))) w))
  = [b]
  ∧ items (st (step (Settle 0 (Delete_settled (Http.Rejected (Http.Thrown None)))) w))
    = [a; b].
Proof.
  intros a b w.
  destruct (handleDelete_ignores_status w 0%nat 1 eq_refl) as [Hdone Hthrown].
  split.
  - exact (proj1 (Hdone (Http.Response 404 (inr "NotFoundError"%string)
                           (inl (Http.Thrown None))))).
  - exact (Hthrown (Http.Thrown None)).
Defined.

End gallery.

(** ** Pages against the coordinator *)

Section registry.
Import Backend.

Lemma live_jobs_of_empty (g : Z) (reg : registry) :
  jobs_of g reg = ∅ → live_jobs_of g reg = ∅.
Proof.
  unfold jobs_of, live_jobs_of. rewrite !map_empty. intros H tid.
  specialize (H tid). apply map_lookup_filter_None in H.
  apply map_lookup_filter_None. destruct H as [H|H]; [by left|right].
  intros j Hj [Hg _]. by apply (H j Hj).
Qed.

Lemma start_finalization_conflict (g : Z) (tid : string) (reg : registry) :
  is_Some (gallery reg !! g) → live_jobs_of g reg ≠ ∅ →
  start_finalization g tid reg = (reg, inl ConflictError).
Proof.
  intros [item Hitem] Hlive. unfold start_finalization.
  rewrite Hitem. rewrite bool_decide_eq_false_2 by done.
  by rewrite andb_false_r.
Qed.

Lemma start_finalization_creates (g : Z) (tid : string) (reg : registry)
    (item : galleryItem) :
  gallery reg !! g = Some item → finalizable item = true →
  live_jobs_of g reg = ∅ →
  start_finalization g tid reg
  = (Registry (images reg) (prototypes reg) (gallery reg)
       (<[tid := FinalizationJob tid g PENDING 0 None]> (jobs reg)),
     inr (FinalizationJob tid g PENDING 0 None)).
Proof.
  intros Hitem Hfin Hlive. unfold start_finalization.
  rewrite Hitem, Hfin. by rewrite bool_decide_eq_true_2.
Qed.

(** Whatever [start_finalization] answers, at most one live job per gallery
    item is left if there was at most one before. *)
Lemma start_finalization_one_live (g g' : Z) (tid : string) (reg : registry) :
  (size (live_jobs_of g' reg) ≤ 1)%nat →
  (size (live_jobs_of g' (start_finalization g tid reg).1) ≤ 1)%nat.
Proof.
  intros Hone. unfold start_finalization.
  destruct (gallery reg !! g) as [item|]; [|done].
  destruct (finalizable item); [|done]. cbn [andb].
  case_bool_decide as Hlive; [|done].
  simpl. unfold live_jobs_of in *. simpl. rewrite map_filter_insert.
  case_decide as HP.
  - destruct HP as [<- _]. simpl in *. rewrite Hlive.
    by rewrite insert_empty, map_size_singleton.
  - etrans; [|exact Hone]. apply map_subseteq_size, map_filter_subseteq_mono.
    apply delete_subseteq.
Qed.

(** A job is never created for a gallery item that is missing or not
    completed/prototype. *)
Lemma start_finalization_not_finalizable (g : Z) (tid : string)
    (reg : registry) :
  (∀ item, gallery reg !! g = Some item → finalizable item = false) →
  (start_finalization g tid reg).1 = reg
  ∧ ∀ job, (start_finalization g tid reg).2 ≠ inr job.
Proof.
  intros Hno. unfold start_finalization.
  destruct (gallery reg !! g) as [item|]; [|done].
  by rewrite (Hno item eq_refl).
Qed.

End registry.

Section rounds.
Import FinalPage.

Lemma commit_prototypeId b w : prototypeId (commit b w) = prototypeId w.
Proof.
  unfold commit, model_effect, poll_effect.
  repeat case_decide; simpl;
    repeat (match goal with |- context [match ?x with _ => _ end] =>
              destruct x end; simpl); done.
Qed.

Lemma click_settle_start (w : world) (p : string) (o : Http.outcome Task.t) :
  prototypeId w = Some p → Js.truthy_string p = true →
  loading (st w) = false →
  step (Settle (length (inflight w)) (Task_settled o)) (step Click_start w)
  = startTask_resume o
      (World (prototypeId w) (setError None (setLoading true (st w)))
             (interval w) (handles w) (inflight w)
             (sent w ++ [Http.POST_generate_meshy p])).
Proof.
  intros Hp Htruthy Hload.
  assert (step Click_start w
          = fetch (Http.POST_generate_meshy p) In_startTask
              (with_st (setError None (setLoading true (st w))) w)) as ->.
  { unfold step, startTask, param_truthy. by rewrite Hload, Hp, Htruthy. }
  unfold step, fetch. cbn [inflight].
  rewrite list_lookup_middle by done.
  unfold with_inflight. cbn. by rewrite delete_middle, app_nil_r.
Qed.

Lemma startTask_resume_st (o : Http.outcome Task.t) (w : world) :
  st (startTask_resume o w)
  = setLoading false
      match Http.try_json o with
      | inr data => setTask (Some data) (st w)
      | inl err =>
          setError (Some (Http.message_or err "Failed to start Meshy task"))
                   (st w)
      end.
Proof. unfold startTask_resume. by rewrite commit_st. Qed.

Lemma startTask_resume_failed (o : Http.outcome Task.t) (err : Http.exn)
    (w : world) :
  Http.try_json o = inl err →
  startTask_resume o w
  = with_st
      (setLoading false
         (setError (Some (Http.message_or err "Failed to start Meshy task"))
                   (st w))) w.
Proof.
  intros Herr. unfold startTask_resume. rewrite Herr.
  by rewrite commit_same_task.
Qed.

End rounds.

Section conflict.
Import Backend.

Lemma try_json_failed_with {A : Type} (code : Z) (body : string) :
  ¬ (200 ≤ code ≤ 299) →
  Http.try_json (Http.failed_with (A:=A) code body) = inl (Http.Error body).
Proof.
  intros Hcode. unfold Http.failed_with, Http.try_json, Http.ok. cbn.
  destruct (Z.leb_spec 200 code), (Z.leb_spec code 299); try done. lia.
Qed.

Lemma start_round_enabled (Number : string → Z) (status_of : error → Z)
    (body_of : error → string) (tid : string)
    (reg : registry) (w : FinalPage.world) (p : string) :
  FinalPage.prototypeId w = Some p → Js.truthy_string p = true →
  FinalPage.loading (FinalPage.st w) = false →
  System.start_round Number status_of body_of tid (reg, w)
  = ((start_finalization (Number p) tid reg).1,
     FinalPage.startTask_resume
       (respond_with status_of body_of snapshot
          (start_finalization (Number p) tid reg).2)
       (FinalPage.World (FinalPage.prototypeId w)
          (FinalPage.setError None
             (FinalPage.setLoading true (FinalPage.st w)))
          (FinalPage.interval w) (FinalPage.handles w) (FinalPage.inflight w)
          (FinalPage.sent w ++ [Http.POST_generate_meshy p]))).
Proof.
  intros Hp Htruthy Hload. unfold System.start_round. cbn [fst snd].
  rewrite Hp, Hload, Htruthy. cbn [orb negb].
  rewrite (click_settle_start w p _ Hp Htruthy Hload). by rewrite Hp.
Qed.

Lemma start_round_conflict (Number : string → Z) (status_of : error → Z)
    (body_of : error → string) (tid : string)
    (reg : registry) (w : FinalPage.world) (p : string) :
  (∀ e, ¬ (200 ≤ status_of e ≤ 299)) →
  FinalPage.prototypeId w = Some p → Js.truthy_string p = true →
  FinalPage.loading (FinalPage.st w) = false →
  is_Some (gallery reg !! Number p) →
  live_jobs_of (Number p) reg ≠ ∅ →
  System.start_round Number status_of body_of tid (reg, w)
  = (reg,
     FinalPage.World (FinalPage.prototypeId w)
       (FinalPage.setLoading false
          (FinalPage.setError (Some (body_of ConflictError))
             (FinalPage.setError None
                (FinalPage.setLoading true (FinalPage.st w)))))
       (FinalPage.interval w) (FinalPage.handles w) (FinalPage.inflight w)
       (FinalPage.sent w ++ [Http.POST_generate_meshy p])).
Proof.
  intros Hcode Hp Htruthy Hload Hitem Hlive.
  rewrite (start_round_enabled _ _ _ _ _ _ p) by done.
  rewrite start_finalization_conflict by done. cbn [fst snd respond_with].
  by rewrite (startTask_resume_failed _ (Http.Error (body_of ConflictError)))
    by (by apply try_json_failed_with).
Qed.

(** C2: starting a job for a gallery item that has a live (non-terminal)
    job fails: the coordinator answers [ConflictError] and records nothing,
    and the page, having sent its one request, keeps the job it had and
    shows the body of the conflict answer.  Two starts in a row for a
    completed/prototype gallery item without a job leave exactly one job
    for it, the first; the second ends with the conflict shown and the
    first job still recorded.  In any registry, a start never takes a
    gallery item from at most one live job to more. *)
Theorem second_start_is_a_conflict (Number : string → Z)
    (status_of : error → Z) (body_of : error → string) :
  (∀ e, ¬ (200 ≤ status_of e ≤ 299)) →
  (∀ (reg : registry) (w : FinalPage.world) (p tid : string),
     FinalPage.prototypeId w = Some p → Js.truthy_string p = true →
     FinalPage.loading (FinalPage.st w) = false →
     is_Some (gallery reg !! Number p) →
     live_jobs_of (Number p) reg ≠ ∅ →
     let s' := System.start_round Number status_of body_of tid (reg, w) in
     start_finalization (Number p) tid reg = (reg, inl ConflictError)
     ∧ s'.1 = reg
     ∧ FinalPage.task (FinalPage.st s'.2) = FinalPage.task (FinalPage.st w)
     ∧ FinalPage.error (FinalPage.st s'.2) = Some (body_of ConflictError)
     ∧ FinalPage.sent s'.2
       = FinalPage.sent w ++ [Http.POST_generate_meshy p])
  ∧ (∀ (reg : registry) (w : FinalPage.world) (item : galleryItem)
       (p t1 t2 : string),
       FinalPage.prototypeId w = Some p → Js.truthy_string p = true →
       FinalPage.loading (FinalPage.st w) = false →
       gallery reg !! Number p = Some item → finalizable item = true →
       jobs_of (Number p) reg = ∅ →
       let s1 := System.start_round Number status_of body_of t1 (reg, w) in
       let s2 := System.start_round Number status_of body_of t2 s1 in
       let job := FinalizationJob t1 (Number p) PENDING 0 None in
       jobs_of (Number p) s1.1 = {[ t1 := job ]}
       ∧ s2.1 = s1.1
       ∧ size (jobs_of (Number p) s2.1) = 1%nat
       ∧ FinalPage.task (FinalPage.st s2.2) = Some (snapshot job)
       ∧ FinalPage.error (FinalPage.st s2.2) = Some (body_of ConflictError))
  ∧ (∀ (reg : registry) (g g' : Z) (tid : string),
       (size (live_jobs_of g' reg) ≤ 1)%nat →
       (size (live_jobs_of g' (start_finalization g tid reg).1) ≤ 1)%nat).
Proof.
  intros Hcode.
  split; [|split; [|intros reg g g' tid; apply start_finalization_one_live]].
  - intros reg w p tid Hp Htruthy Hload Hitem Hlive s'. subst s'.
    rewrite (start_round_conflict _ _ _ _ _ _ p) by done.
    split; [by apply start_finalization_conflict|done].
  - intros reg w item p t1 t2 Hp Htruthy Hload Hitem Hfin Hnone s1 s2 job.
    assert (s1 = (Registry (images reg) (prototypes reg) (gallery reg)
                    (<[t1 := job]> (jobs reg)),
                  FinalPage.startTask_resume (Http.ok_with (snapshot job))
                    (FinalPage.World (FinalPage.prototypeId w)
                       (FinalPage.setError None
                          (FinalPage.setLoading true (FinalPage.st w)))
                       (FinalPage.interval w) (FinalPage.handles w)
                       (FinalPage.inflight w)
                       (FinalPage.sent w ++ [Http.POST_generate_meshy p]))))
      as Hs1.
    { subst s1. rewrite (start_round_enabled _ _ _ _ _ _ p) by done.
      rewrite (start_finalization_creates _ _ _ item)
        by (by try apply live_jobs_of_empty).
      done. }
    assert (jobs_of (Number p) s1.1 = {[ t1 := job ]}) as Hjobs.
    { rewrite Hs1. unfold jobs_of in *. cbn [fst jobs].
      rewrite map_filter_insert_True by done.
      by rewrite Hnone, insert_empty. }
    assert (live_jobs_of (Number p) s1.1 ≠ ∅) as Hlive.
    { rewrite Hs1. unfold live_jobs_of. cbn [fst jobs]. intros Hempty.
      eapply (map_filter_empty_not_lookup _ _ t1 job); [exact Hempty|done|].
      apply lookup_insert_eq. }
    assert (s2 = (s1.1,
                  FinalPage.World (FinalPage.prototypeId s1.2)
                    (FinalPage.setLoading false
                       (FinalPage.setError (Some (body_of ConflictError))
                          (FinalPage.setError None
                             (FinalPage.setLoading true
                                (FinalPage.st s1.2)))))
                    (FinalPage.interval s1.2) (FinalPage.handles s1.2)
                    (FinalPage.inflight s1.2)
                    (FinalPage.sent s1.2 ++ [Http.POST_generate_meshy p])))
      as Hs2.
    { subst s2. rewrite (surjective_pairing s1) at 1.
      rewrite (start_round_conflict _ _ _ _ _ _ p).
      - reflexivity.
      - exact Hcode.
      - rewrite Hs1. cbn [snd]. unfold FinalPage.startTask_resume.
        by rewrite commit_prototypeId.
      - exact Htruthy.
      - rewrite Hs1. cbn [snd]. by rewrite startTask_resume_st.
      - rewrite Hs1. cbn [fst gallery]. by rewrite Hitem.
      - exact Hlive. }
    split; [done|]. split; [by rewrite Hs2|].
    split; [rewrite Hs2; cbn [fst]; by rewrite Hjobs, map_size_singleton|].
    rewrite Hs2. cbn [snd FinalPage.st FinalPage.setLoading
      FinalPage.setError FinalPage.task FinalPage.error].
    split; [|done]. rewrite Hs1. cbn [snd].
    by rewrite startTask_resume_st.
Qed.

End conflict.

Section conflict_witness.
Import Backend.

Lemma second_start_is_a_conflict_witness :
  let Number := λ _ : string, 1 in
  let status_of := λ _ : error, 409 in
  let body_of := λ _ : error, "a job is already running"%string in
  let item := GalleryItem 1 1 "cube" "prototype" "completed" None in
  let reg := Registry ∅ ∅ {[ 1 := item ]} ∅ in
  let job := FinalizationJob "t1" 1 PENDING 0 None in
  let reg1 := Registry ∅ ∅ {[ 1 := item ]} {[ "t1"%string := job ]} in
  let w := FinalPage.mount (Some "1"%string) in
  let s' := System.start_round Number status_of body_of "t2" (reg1, w) in
  let s2 := System.start_round Number status_of body_of "t2"
              (System.start_round Number status_of body_of "t1" (reg, w)) in
  (s'.1 = reg1
   ∧ FinalPage.error (FinalPage.st s'.2) = Some "a job is already running"%string)
  ∧ size (jobs_of 1 s2.1) = 1%nat
  ∧ FinalPage.task (FinalPage.st s2.2) = Some (snapshot job)
  ∧ FinalPage.error (FinalPage.st s2.2) = Some "a job is already running"%string.
Proof.
  intros Number status_of body_of item reg job reg1 w s' s2.
  assert (∀ e : error, ¬ (200 ≤ status_of e ≤ 299)) as Hcode.
  { intros e. unfold status_of. lia. }
  destruct (second_start_is_a_conflict Number status_of body_of Hcode)
    as (Hconflict & Htwice & _).
  split.
  - destruct (Hconflict reg1 w "1"%string "t2"%string
                eq_refl eq_refl eq_refl (ex_intro _ item eq_refl))
      as (_ & Hreg & _ & Herror & _).
    + intros Hempty. vm_compute in Hempty. discriminate Hempty.
    + exact (conj Hreg Herror).
  - destruct (Htwice reg w item "1"%string "t1"%string "t2"%string
                eq_refl eq_refl eq_refl eq_refl eq_refl eq_refl)
      as (_ & _ & Hsize & Htask & Herror).
    exact (conj Hsize (conj Htask Herror)).
Defined.

End conflict_witness.

Section deletion.
Import Backend.

(** C8: deleting gallery item [id] takes exactly the items with that id out
    of the displayed list, the others staying as they are and in their
    order; one DELETE request for that id is all the page sends; in the
    registry the row of that gallery item is gone, every other gallery row
    is as before, and the prototype and concept-image records are the
    same. *)
Theorem delete_removes_only_the_item (reg : registry)
    (w : GalleryPage.world) (id : Z) :
  let s' := System.delete_round id (reg, w) in
  let before := GalleryPage.items (GalleryPage.st w) in
  let after := GalleryPage.items (GalleryPage.st s'.2) in
  (∀ x, x ∈ after ↔ x ∈ before ∧ GalleryItem.id x ≠ id)
  ∧ after `sublist_of` before
  ∧ after = filter (λ x, GalleryItem.id x ≠ id) before
  ∧ GalleryPage.sent s'.2 = GalleryPage.sent w ++ [Http.DELETE_gallery id]
  ∧ gallery s'.1 !! id = None
  ∧ (∀ k, k ≠ id → gallery s'.1 !! k = gallery reg !! k)
  ∧ prototypes s'.1 = prototypes reg
  ∧ images s'.1 = images reg.
Proof.
  intros s' before after.
  assert (after = filter (λ x, GalleryItem.id x ≠ id) before) as Hafter.
  { subst after s'. unfold System.delete_round. cbn [fst snd].
    rewrite (settle_delete _ _ id)
      by (cbn; by apply list_lookup_middle).
    unfold delete_gallery_item. by destruct (gallery reg !! id). }
  assert (GalleryPage.sent s'.2
          = GalleryPage.sent w ++ [Http.DELETE_gallery id]) as Hsent.
  { subst s'. unfold System.delete_round. cbn [fst snd].
    by rewrite (settle_delete _ _ id)
      by (cbn; by apply list_lookup_middle). }
  split; [|split; [|split; [done|split; [done|]]]].
  - intros x. rewrite Hafter, list_elem_of_filter. tauto.
  - rewrite Hafter. apply sublist_filter.
  - subst s'. unfold System.delete_round, delete_gallery_item. cbn [fst snd].
    destruct (gallery reg !! id) eqn:Hid; cbn.
    + split; [apply lookup_delete_eq|]. split; [|done].
      intros k Hk. by apply lookup_delete_ne.
    + done.
Qed.

End deletion.

(** ** The scenarios of the specification *)

Section scenarios.
Import FinalPage.

(** Finalizing gallery item 1: the job is recorded [PENDING], the first
    poll brings it to [IN_PROGRESS] at 40, the second to [SUCCEEDED] at 100;
    then the interval is gone and a further tick sends nothing. *)
Example scenario_finalize :
  let t s p := Task.Make (Some "t1"%string) (Some 1) s (Some p) None in
  let w1 := run [Click_start;
                 Settle 0 (Task_settled (Http.ok_with (t "PENDING" 0)))]
                (mount (Some "1"%string)) in
  let w2 := run [Tick;
                 Settle 1 (Task_settled (Http.ok_with (t "IN_PROGRESS" 40)))]
                w1 in
  let w3 := run [Tick;
                 Settle 2 (Task_settled (Http.ok_with (t "SUCCEEDED" 100)))]
                w2 in
  task (st w1) = Some (t "PENDING" 0) ∧ interval w1 = Some (0%nat, "t1"%string)
  ∧ task (st w2) = Some (t "IN_PROGRESS" 40)
  ∧ task (st w3) = Some (t "SUCCEEDED" 100) ∧ interval w3 = None
  ∧ step Tick w3 = w3.
Proof. vm_compute. by repeat split. Qed.

(** A poll that fails between two good ones is not seen in the record. *)
Example scenario_transient_failure :
  let t s p := Task.Make (Some "t1"%string) (Some 1) s (Some p) None in
  let w := World (Some "1"%string)
             (State (Some (t "IN_PROGRESS" 40)) None false None)
             (Some (0%nat, "t1"%string)) 1 [] [] in
  let w' := run [Tick; Settle 0 (Task_settled (Http.Rejected (Http.Thrown None)));
                 Tick; Settle 0 (Task_settled (Http.failed_with 502 "bad gateway"))]
                w in
  st w' = st w ∧ interval w' = interval w
  ∧ task (st (poll_ok (t "IN_PROGRESS" 55) w')) = Some (t "IN_PROGRESS" 55).
Proof. vm_compute. by repeat split. Qed.

End scenarios.

(** Trimming keeps inner white space and drops it at both ends. *)
Example trim_example :
  Js.trim (Js.of_string "  a red cube  ") = Js.of_string "a red cube"
  ∧ Js.trim [160%N; 9%N; 8232%N] = [].
Proof. by vm_compute. Qed.

(** Deleting gallery item 1 from a registry that holds prototype 1 and
    concept image 1: both stay retrievable, the list no longer shows it. *)
Example scenario_delete :
  let image := Backend.ConceptImage 1 (Js.of_string "a red cube") None
                 "/img/1.png" "cube" None in
  let proto := Backend.Prototype 1 1 None None "cube" in
  let item := Backend.GalleryItem 1 1 "cube" "prototype" "completed" None in
  let reg := Backend.Registry {[ 1 := image ]} {[ 1 := proto ]}
               {[ 1 := item ]} ∅ in
  let shown := GalleryItem.Make 1 (Some "cube"%string) None None in
  let w := GalleryPage.World (GalleryPage.State [shown] false) [] [] [] in
  let s' := System.delete_round 1 (reg, w) in
  GalleryPage.items (GalleryPage.st s'.2) = []
  ∧ Backend.gallery s'.1 !! 1 = None
  ∧ Backend.prototypes s'.1 !! 1 = Some proto
  ∧ Backend.images s'.1 !! 1 = Some image.
Proof. vm_compute. by repeat split. Qed.

(** * Further properties of the pages *)

(** ** Tier 1 *)

Section two_d_page.
Import TwoDPage.

(** X1: a click on the enabled button with a prompt that is not blank,
    answered 2xx with an image: one request leaves, carrying the prompt as
    typed (not trimmed) and the refinement notes only when they are not
    empty; the image is put in front of the results, the error is cleared
    and [loading] is off again. *)
Theorem generate_round_trip (w : world) (res : Http.response ConceptImage.t)
    (data : ConceptImage.t) :
  Js.blank (prompt (st w)) = false → loading (st w) = false →
  Http.ok res = true → Http.json res = inr data →
  let w' := run [Click_generate; Settle (length (inflight w)) (Http.Resolved res)] w in
  sent w' = sent w ++
    [Http.POST_generate_2d (prompt (st w))
       (match refinementNotes (st w) with
        | [] => None
        | _ :: _ => Some (refinementNotes (st w))
        end)]
  ∧ results (st w') = data :: results (st w)
  ∧ error (st w') = None
  ∧ loading (st w') = false
  ∧ inflight w' = inflight w.
Proof.
  intros Hb Hl Hok Hjson. cbn [run foldl].
  assert (step Click_generate w = handleGenerate w) as ->.
  { unfold step. by rewrite Hl, truthy_trim, Hb. }
  unfold handleGenerate. rewrite truthy_trim, Hb. cbn [negb].
  unfold step. cbn [inflight]. rewrite list_lookup_middle by done.
  cbn [st sent]. rewrite (TwoDPage_resume_success _ _ _ _ Hok Hjson).
  rewrite delete_middle, app_nil_r. cbn.
  unfold Js.or_undefined. by destruct (refinementNotes (st w)).
Qed.

Lemma generate_round_trip_witness :
  let img := ConceptImage.Make 1 (Js.of_string " a red cube") None None in
  let w := World (State (Js.of_string " a red cube") [] false
                    (Some "earlier failure"%string) []) [] [] [] in
  let w' := run [Click_generate; Settle 0 (Http.ok_with img)] w in
  sent w' = [Http.POST_generate_2d (Js.of_string " a red cube") None]
  ∧ results (st w') = [img]
  ∧ error (st w') = None
  ∧ loading (st w') = false
  ∧ inflight w' = [].
Proof.
  intros img w.
  exact (generate_round_trip w
           (Http.Response 200 (inl (Http.Thrown None)) (inr img)) img
           eq_refl eq_refl eq_refl eq_refl).
Defined.

(** X2: [handleRefine] does nothing exactly when the refinement text is
    blank; otherwise it sends the text as typed for the given image, also
    while another request is in flight ([loading] is not consulted). *)
Theorem handleRefine_silent_iff_blank (id : Z) (refinementText : Js.text)
    (w : world) :
  (handleRefine id refinementText w = w ↔ Js.blank refinementText = true)
  ∧ (Js.blank refinementText = false →
     sent (handleRefine id refinementText w)
     = sent w ++ [Http.POST_refine_2d id refinementText]).
Proof.
  unfold handleRefine. rewrite truthy_trim.
  destruct (Js.blank refinementText); cbn [negb].
  - split; [done|]. discriminate.
  - split; [|done]. split; [|discriminate].
    intros H. apply (f_equal (λ x, length (sent x))) in H.
    cbn in H. rewrite length_app in H. simpl in H. lia.
Qed.

Lemma handleRefine_silent_iff_blank_witness :
  let w := World (State [] [] true None []) [In_handleGenerate] [] [] in
  sent (handleRefine 3 (Js.of_string "shinier ") w)
  = [Http.POST_refine_2d 3 (Js.of_string "shinier ")].
Proof.
  intros w.
  exact (proj2 (handleRefine_silent_iff_blank 3 (Js.of_string "shinier ") w)
           eq_refl).
Defined.

(** X3: an image is recorded only for a 2xx response whose body parses: if
    a settling request changes the results, its response was such a one and
    the results grew by exactly its data. *)
Theorem results_change_only_on_success (w : world) (i : nat)
    (o : Http.outcome ConceptImage.t) :
  results (st (step (Settle i o) w)) ≠ results (st w) →
  ∃ res data, o = Http.Resolved res ∧ Http.ok res = true
              ∧ Http.json res = inr data
              ∧ results (st (step (Settle i o) w)) = data :: results (st w).
Proof.
  unfold step. destruct (inflight w !! i) as [p|]; [|done]. cbn [st].
  unfold resume. destruct o as [err|res]; [done|]. simpl.
  destruct (Http.ok res) eqn:Hok.
  - destruct (Http.json res) as [err|data] eqn:Hjson; [done|].
    intros _. by exists res, data.
  - by destruct (Http.text res).
Qed.

Lemma results_change_only_on_success_witness :
  let img := ConceptImage.Make 1 (Js.of_string "cube") None None in
  let w := World (State [] [] true None []) [In_handleGenerate] [] [] in
  ∃ res data, Http.ok_with img = Http.Resolved res ∧ Http.ok res = true
              ∧ Http.json res = inr data
              ∧ results (st (step (Settle 0 (Http.ok_with img)) w))
                = data :: results (st w).
Proof.
  intros img w.
  apply (results_change_only_on_success w 0%nat (Http.ok_with img)).
  vm_compute. discriminate.
Defined.

(** X4: over any sequence of events the page only accumulates: the results
    recorded before are a suffix of the results after, the requests sent
    before a prefix of the requests after. *)
Theorem page_only_accumulates (es : list event) (w : world) :
  results (st w) `suffix_of` results (st (run es w))
  ∧ sent w `prefix_of` sent (run es w).
Proof.
  split; [apply TwoDPage_results_grow_run|].
  revert w. induction es as [|e es IH]; intros w; [done|].
  cbn [run foldl]. etrans; [|apply IH].
  destruct e as [p|n| |id t|id|i o]; cbn; try done.
  - destruct (_ || _); [done|]. unfold handleGenerate.
    destruct (negb _); [done|]. by apply prefix_app_r.
  - unfold handleRefine. destruct (negb _); [done|]. by apply prefix_app_r.
  - by destruct (inflight w !! i).
Qed.

(** X5: a request of either handler that settles in failure (the fetch
    rejects, the response is not 2xx, or the body does not parse) records
    no image and shows the thrown message, or the handler's own fallback
    text when the thrown value has none; [loading] is switched off whatever
    the outcome and however many other requests are still pending. *)
Theorem failure_shows_message_or_fallback (w : world) (i : nat) (p : pending)
    (o : Http.outcome ConceptImage.t) :
  inflight w !! i = Some p →
  let w' := step (Settle i o) w in
  loading (st w') = false
  ∧ (∀ err, Http.try_json o = inl err →
       results (st w') = results (st w)
       ∧ error (st w')
         = Some (default (match p with
                          | In_handleGenerate => "Failed to generate image"
                          | In_handleRefine => "Failed to refine image"
                          end) (Http.message err)))
  ∧ (∀ err, o = Http.Rejected err → Http.try_json o = inl err).
Proof.
  intros Hi. unfold step. rewrite Hi. cbn [st]. unfold resume.
  split; [done|]. split.
  - intros err ->. by destruct p.
  - by intros err ->.
Qed.

Lemma failure_shows_message_or_fallback_witness :
  let w := World (State [] [] true None []) [In_handleRefine; In_handleGenerate] [] [] in
  let w' := step (Settle 0 (Http.Rejected (Http.Thrown None))) w in
  loading (st w') = false
  ∧ error (st w') = Some "Failed to refine image"%string.
Proof.
  intros w.
  destruct (failure_shows_message_or_fallback w 0%nat In_handleRefine
              (Http.Rejected (Http.Thrown None)) eq_refl)
    as (Hl & Hfail & _).
  exact (conj Hl (proj2 (Hfail (Http.Thrown None) eq_refl))).
Defined.

End two_d_page.

(** ** Tier 2 *)

Section prototype_page.
Import PrototypePage.

(** X6: opened without an [imageId] (absent or empty), the page never sends
    a request and never changes, whatever is clicked or settles: no image
    is loaded, no prototype can be generated, and with no prototype nothing
    can be saved. *)
Theorem no_imageId_page_is_inert (imageId : option string) (es : list event) :
  param_truthy imageId = false →
  foldl (λ w e, step e w) (mount imageId) es = mount imageId.
Proof.
  intros Hp.
  assert (mount imageId = World imageId (State None None false None) [] [] [])
    as Hm.
  { unfold mount. destruct imageId as [i|]; [|done]. simpl in Hp.
    by rewrite Hp. }
  induction es as [|e es IH]; [done|]. cbn [foldl].
  assert (step e (mount imageId) = mount imageId) as ->; [|exact IH].
  rewrite Hm. destruct e as [| |i r]; cbn.
  - by rewrite Hp.
  - done.
  - done.
Qed.

Lemma no_imageId_page_is_inert_witness :
  foldl (λ w e, step e w) (mount (Some ""%string))
    [Click_generatePrototype; Click_saveToGallery;
     Settle 0 (Image_settled (Http.Rejected (Http.Thrown None)))]
  = mount (Some ""%string).
Proof.
  exact (no_imageId_page_is_inert (Some ""%string)
           [Click_generatePrototype; Click_saveToGallery;
            Settle 0 (Image_settled (Http.Rejected (Http.Thrown None)))]
           eq_refl).
Defined.

(** X7: opened with an [imageId], the page sends one request for that image
    at once.  A 2xx answer is recorded as the image; an answer that is not
    2xx leaves the image unset and shows the body text.  Neither touches
    [loading]. *)
Theorem image_load_outcomes (imageId : string)
    (res : Http.response ConceptImage.t) :
  Js.truthy_string imageId = true →
  let w := mount (Some imageId) in
  let w' := step (Settle 0 (Image_settled (Http.Resolved res))) w in
  sent w = [Http.GET_generate_2d imageId]
  ∧ loading (st w') = false
  ∧ sent w' = sent w
  ∧ (∀ data, Http.ok res = true → Http.json res = inr data →
       image (st w') = Some data ∧ error (st w') = None)
  ∧ (∀ body, Http.ok res = false → Http.text res = inr body →
       image (st w') = None ∧ error (st w') = Some body).
Proof.
  intros Ht. unfold mount. rewrite Ht. cbn.
  split; [done|]. unfold loadImage_resume. simpl.
  destruct (Http.ok res).
  - destruct (Http.json res); repeat split; try done;
      intros; simplify_eq; done.
  - destruct (Http.text res); repeat split; try done;
      intros; simplify_eq; done.
Qed.

Lemma image_load_outcomes_witness :
  let w := mount (Some "7"%string) in
  let w' := step (Settle 0 (Image_settled (Http.failed_with 404 "no such image"))) w in
  sent w = [Http.GET_generate_2d "7"]
  ∧ image (st w') = None ∧ error (st w') = Some "no such image"%string.
Proof.
  intros w.
  destruct (image_load_outcomes "7"
              (Http.Response 404 (inr "no such image"%string)
                 (inl (Http.Thrown None))) eq_refl)
    as (Hs & _ & _ & _ & Hfail).
  exact (conj Hs (Hfail "no such image"%string eq_refl eq_refl)).
Defined.

(** X8: once a prototype has been generated, saving it sends its own [id]
    and [name] to the gallery; the generation itself sends nothing when it
    settles. *)
Theorem save_sends_generated_prototype (w : world) (i : nat)
    (res : Http.response Prototype.t) (data : Prototype.t) :
  inflight w !! i = Some In_handleGeneratePrototype →
  Http.ok res = true → Http.json res = inr data →
  let w1 := step (Settle i (Prototype_settled (Http.Resolved res))) w in
  prototype (st w1) = Some data
  ∧ loading (st w1) = false
  ∧ sent w1 = sent w
  ∧ sent (step Click_saveToGallery w1)
    = sent w ++ [Http.POST_gallery_save (Prototype.id data)
                   (Prototype.name data)].
Proof.
  intros Hi Hok Hjson w1.
  assert (w1 = World (imageId w)
                 (setLoading false (setPrototype (Some data) (st w)))
                 (delete i (inflight w)) (sent w) (pushed w)) as ->.
  { subst w1. unfold step. rewrite Hi.
    unfold handleGeneratePrototype_resume. simpl. by rewrite Hok, Hjson. }
  done.
Qed.

Lemma save_sends_generated_prototype_witness :
  let p := Prototype.Make 5 (Some "cube"%string) None None in
  let w := World (Some "7"%string) (State None None true None)
             [In_handleGeneratePrototype] [] [] in
  let w1 := step (Settle 0 (Prototype_settled (Http.ok_with p))) w in
  sent (step Click_saveToGallery w1)
  = [Http.POST_gallery_save 5 (Some "cube"%string)].
Proof.
  intros p w.
  exact (proj2 (proj2 (proj2
           (save_sends_generated_prototype w 0%nat
              (Http.Response 200 (inl (Http.Thrown None)) (inr p)) p
              eq_refl eq_refl eq_refl)))).
Defined.

(** X9: [handleSaveToGallery] goes to the gallery as soon as the save
    request completes, whatever its status (the response is never
    inspected, so also after an error answer); it stays on the page only
    when the request itself throws.  In neither case does the page state
    change, and without a prototype the handler does nothing. *)
Theorem save_navigates_on_any_status (w : world) (i : nat) :
  inflight w !! i = Some In_handleSaveToGallery →
  (∀ res : Http.response unit,
     let w' := step (Settle i (Save_settled (Http.Resolved res))) w in
     pushed w' = pushed w ++ ["/gallery"%string] ∧ st w' = st w)
  ∧ (∀ err : Http.exn,
       let w' := step (Settle i (Save_settled (Http.Rejected err))) w in
       pushed w' = pushed w ∧ st w' = st w)
  ∧ (prototype (st w) = None → handleSaveToGallery w = w).
Proof.
  intros Hi. unfold step. rewrite Hi. cbn.
  repeat split. intros Hnone. unfold handleSaveToGallery. by rewrite Hnone.
Qed.

Lemma save_navigates_on_any_status_witness :
  let w := World (Some "7"%string) (State None None false None)
             [In_handleSaveToGallery] [] [] in
  pushed (step (Settle 0 (Save_settled (Http.failed_with 500 "save failed"))) w)
  = ["/gallery"%string].
Proof.
  intros w.
  exact (proj1 (proj1 (save_navigates_on_any_status w 0%nat eq_refl)
                  (Http.Response 500 (inr "save failed"%string)
                     (inl (Http.Thrown None))))).
Defined.

End prototype_page.

(** ** The gallery *)

Section gallery_page.
Import GalleryPage.

(** X10: the list request of the gallery is adopted whatever its status:
    any response whose body parses replaces the list by its [items], or
    by the empty list when [items] is missing; a rejected fetch or a body
    that does not parse leaves the list as it was.  [loading] ends in every
    case. *)
Theorem gallery_load_ignores_status (w : world) (i : nat)
    (o : Http.outcome listing) :
  inflight w !! i = Some In_load →
  let w' := step (Settle i (Load_settled o)) w in
  loading (st w') = false
  ∧ (∀ res data, o = Http.Resolved res → Http.json res = inr data →
       items (st w') = default [] (listing_items data))
  ∧ (∀ res err, o = Http.Resolved res → Http.json res = inl err →
       items (st w') = items (st w))
  ∧ (∀ err, o = Http.Rejected err → items (st w') = items (st w)).
Proof.
  intros Hi. unfold step. rewrite Hi. cbn [st]. unfold load_resume.
  split; [done|]. repeat split.
  - intros res data -> Hjson. by rewrite Hjson.
  - intros res err -> Hjson. by rewrite Hjson.
  - by intros err ->.
Qed.

Lemma gallery_load_ignores_status_witness :
  let a := GalleryItem.Make 1 (Some "cube"%string) None None in
  let res := Http.Response 500 (inr "oops"%string)
               (inr (Listing None)) in
  let w := World (State [a] true) [In_load] [Http.GET_gallery] [] in
  let w' := step (Settle 0 (Load_settled (Http.Resolved res))) w in
  loading (st w') = false ∧ items (st w') = [].
Proof.
  intros a res w.
  destruct (gallery_load_ignores_status w 0%nat (Http.Resolved res) eq_refl)
    as (Hl & Hparsed & _).
  exact (conj Hl (Hparsed res (Listing None) eq_refl eq_refl)).
Defined.

Lemma delete_delete_comm {A : Type} (l : list A) (i j : nat) :
  (i ≤ j)%nat → delete j (delete i l) = delete i (delete (S j) l).
Proof.
  revert i j. induction l as [|x l IH]; intros i j Hij; [done|].
  destruct i as [|i]; [done|]. destruct j as [|j]; [lia|].
  cbn. f_equal. apply IH. lia.
Qed.

Lemma handleDelete_resume_comm (a b : Z) (oa ob : Http.outcome unit)
    (s : state) :
  handleDelete_resume b ob (handleDelete_resume a oa s)
  = handleDelete_resume a oa (handleDelete_resume b ob s).
Proof.
  destruct oa as [ea|ra], ob as [eb|rb]; try done.
  unfold handleDelete_resume, setItems. cbn. f_equal.
  rewrite !list_filter_filter. apply list_filter_iff. tauto.
Qed.

(** X11: two deletions in flight may settle in either order: the page ends
    in the same state, with the same list. *)
Theorem deletes_commute (w : world) (i j : nat) (a b : Z)
    (oa ob : Http.outcome unit) :
  (i ≤ j)%nat →
  inflight w !! i = Some (In_handleDelete a) →
  inflight w !! S j = Some (In_handleDelete b) →
  run [Settle i (Delete_settled oa); Settle j (Delete_settled ob)] w
  = run [Settle (S j) (Delete_settled ob); Settle i (Delete_settled oa)] w.
Proof.
  intros Hij Hi Hj. cbn [run foldl].
  rewrite (settle_delete w i a oa Hi), (settle_delete w (S j) b ob Hj).
  rewrite (settle_delete _ j b ob), (settle_delete _ i a oa).
  - cbn. by rewrite handleDelete_resume_comm, delete_delete_comm.
  - cbn. rewrite list_lookup_delete_lt by lia. done.
  - cbn. rewrite list_lookup_delete_ge by lia. done.
Qed.

Lemma deletes_commute_witness :
  let a := GalleryItem.Make 1 None None None in
  let b := GalleryItem.Make 2 None None None in
  let c := GalleryItem.Make 3 None None None in
  let w := World (State [a; b; c] false)
             [In_handleDelete 1; In_handleDelete 3] [] [] in
  let ok := Http.ok_with tt in
  run [Settle 0 (Delete_settled ok); Settle 0 (Delete_settled ok)] w
  = run [Settle 1 (Delete_settled ok); Settle 0 (Delete_settled ok)] w.
Proof.
  intros a b c w ok.
  apply (deletes_commute w 0%nat 0%nat 1 3 ok ok); [lia|reflexivity..].
Defined.

(** X12: once the list has been loaded (no list request pending), the page
    never adds, changes or reorders an item: after any sequence of events
    the list shown is a sublist of the one before. *)
Theorem gallery_items_only_shrink (es : list event) (w : world) :
  Forall (λ p, p ≠ In_load) (inflight w) →
  items (st (run es w)) `sublist_of` items (st w).
Proof.
  revert w. induction es as [|e es IH]; intros w Hfl; [done|].
  cbn [run foldl].
  assert (items (st (step e w)) `sublist_of` items (st w)
          ∧ Forall (λ p, p ≠ In_load) (inflight (step e w))) as [Hsub Hfl'].
  { destruct e as [id|id|i r]; cbn.
    - split; [done|]. apply Forall_app. split; [done|].
      by repeat constructor.
    - done.
    - destruct (inflight w !! i) as [p|] eqn:Hp; [|done].
      pose proof (proj1 (Forall_lookup _ _) Hfl _ _ Hp) as Hne.
      destruct p as [|id]; [done|]. destruct r as [o|o]; [done|].
      cbn. split; [|by apply Forall_delete].
      destruct o as [err|res]; cbn; [done|]. apply sublist_filter. }
  etrans; [apply (IH _ Hfl')|exact Hsub].
Qed.

Lemma gallery_items_only_shrink_witness :
  let a := GalleryItem.Make 1 None None None in
  let b := GalleryItem.Make 2 None None None in
  let w := World (State [a; b] false) [] [] [] in
  items (st (run [Click_delete 1; Click_generateFinal 2;
                  Settle 0 (Delete_settled (Http.ok_with tt))] w))
    `sublist_of` [a; b].
Proof.
  intros a b w.
  apply (gallery_items_only_shrink
           [Click_delete 1; Click_generateFinal 2;
            Settle 0 (Delete_settled (Http.ok_with tt))] w).
  constructor.
Defined.

End gallery_page.

(** ** Tier 3 *)

Section final_page_runs.
Import FinalPage.

(** X13: opened without a [prototypeId] (absent or empty), the page is
    inert: whatever is clicked, fires or settles, it sends no request,
    starts no timer and records nothing. *)
Theorem no_prototypeId_page_is_inert (prototypeId : option string)
    (es : list event) :
  param_truthy prototypeId = false →
  run es (mount prototypeId) = mount prototypeId.
Proof.
  intros Hp. induction es as [|e es IH]; [done|]. cbn [run foldl].
  assert (step e (mount prototypeId) = mount prototypeId) as ->; [|exact IH].
  destruct e as [| |i r]; cbn; [|done..]. by rewrite Hp.
Qed.

Lemma no_prototypeId_page_is_inert_witness :
  run [Click_start; Tick;
       Settle 0 (Task_settled (Http.Rejected (Http.Thrown None)))]
      (mount None)
  = mount None.
Proof.
  exact (no_prototypeId_page_is_inert None
           [Click_start; Tick;
            Settle 0 (Task_settled (Http.Rejected (Http.Thrown None)))]
           eq_refl).
Defined.

Lemma model_effect_starts b w :
  List.filter is_start (inflight (model_effect b w))
  = List.filter is_start (inflight w).
Proof.
  unfold model_effect. case_decide; [done|].
  destruct (dep_gallery_item_id (st w)) as [g|]; [|done].
  destruct (g =? 0); [done|]. cbn. rewrite List.filter_app. cbn.
  by rewrite app_nil_r.
Qed.

Lemma commit_starts b w :
  List.filter is_start (inflight (commit b w))
  = List.filter is_start (inflight w).
Proof. unfold commit. by rewrite model_effect_starts, poll_effect_inflight. Qed.

Lemma starts_delete (l : list pending) (i : nat) (p : pending) :
  l !! i = Some p →
  (length (List.filter is_start (delete i l)) + (if is_start p then 1 else 0)
   = length (List.filter is_start l))%nat.
Proof.
  revert i. induction l as [|x l IH]; intros i Hi; [done|].
  destruct i as [|i].
  - injection Hi as ->. change (delete 0%nat (p :: l)) with l.
    cbn [List.filter]. destruct (is_start p); cbn [length]; lia.
  - change (delete (S i) (x :: l)) with (x :: delete i l).
    specialize (IH i Hi). cbn [List.filter].
    destruct (is_start x); cbn [length]; lia.
Qed.

Lemma step_start_invariant (e : event) (w : world) :
  starts_in_flight w = (if loading (st w) then 1 else 0)%nat →
  starts_in_flight (step e w)
  = (if loading (st (step e w)) then 1 else 0)%nat.
Proof.
  unfold starts_in_flight. intros Hinv. destruct e as [| |i r].
  - cbn. destruct (loading (st w)) eqn:Hl; cbn; [by rewrite Hl|].
    destruct (param_truthy (prototypeId w)) eqn:Hp; cbn; [|by rewrite Hl].
    unfold startTask, param_truthy in *.
    destruct (prototypeId w) as [p|]; [|done]. rewrite Hp. cbn.
    rewrite List.filter_app, length_app, Hinv. done.
  - cbn. unfold tick. destruct (interval w) as [[h tid]|]; [|done].
    cbn. rewrite List.filter_app, length_app, Hinv. cbn. lia.
  - cbn. destruct (inflight w !! i) as [p|] eqn:Hp; [|done].
    pose proof (starts_delete _ _ _ Hp) as Hdel. rewrite Hinv in Hdel.
    destruct p as [|h tid|], r as [o|o]; try done.
    + unfold startTask_resume. rewrite commit_starts, commit_st. cbn in *.
      destruct (loading (st w)); lia.
    + unfold poll_resume. cbn in Hdel.
      assert (length (List.filter is_start (delete i (inflight w)))
              = (if loading (st w) then 1 else 0)%nat) as Hlen by lia.
      destruct o as [err|res]; [done|].
      destruct (negb (Http.ok res)); [done|].
      destruct (Http.json res) as [err|data]; [done|].
      rewrite commit_starts, commit_st. cbv zeta.
      by destruct (Task.terminal data);
        rewrite ?clearInterval_inflight, ?clearInterval_st.
    + unfold loadModel_resume. cbn in Hdel.
      assert (length (List.filter is_start (delete i (inflight w)))
              = (if loading (st w) then 1 else 0)%nat) as Hlen by lia.
      destruct o as [err|res]; [done|].
      destruct (Http.ok res); [|done].
      destruct (Http.json res) as [err|data]; [done|].
      by rewrite commit_starts, commit_st.
Qed.

(** X14: however the button is clicked and whatever settles in between, at
    most one start request is in flight, and [loading] is on exactly while
    one is: the button being disabled while [loading] keeps a second start
    from leaving before the first has settled. *)
Theorem one_start_in_flight (prototypeId : option string) (es : list event) :
  let w := run es (mount prototypeId) in
  (starts_in_flight w ≤ 1)%nat
  ∧ (loading (st w) = true ↔ starts_in_flight w = 1%nat).
Proof.
  assert (∀ w, starts_in_flight w = (if loading (st w) then 1 else 0)%nat →
               starts_in_flight (run es w)
               = (if loading (st (run es w)) then 1 else 0)%nat) as Hrun.
  { induction es as [|e es IH]; intros w Hw; [done|].
    cbn [run foldl]. by apply IH, step_start_invariant. }
  intros w. specialize (Hrun (mount prototypeId) eq_refl). fold w in Hrun.
  rewrite Hrun. destruct (loading (st w)); split; try lia; done.
Qed.








End final_page_runs.

Section final_page_steps.
Import FinalPage.

Lemma terminal_adoption_stops_polling_witness :
  let t s p := Task.Make (Some "t1"%string) (Some 1) s (Some p) None in
  let w := World (Some "1"%string)
             (State (Some (t "IN_PROGRESS" 40)) None false None)
             (Some (0%nat, "t1"%string)) 1 [In_poll 0 "t1"] [] in
  let w' := step (Settle 0 (Task_settled (Http.ok_with (t "FAILED" 40)))) w in
  task (st w') = Some (t "FAILED" 40) ∧ interval w' = None
  ∧ step Tick w' = w'.
Proof.
  intros t w.
  apply (terminal_adoption_stops_polling w 0%nat 0%nat "t1"
           (Http.Response 200 (inl (Http.Thrown None)) (inr (t "FAILED" 40)))
           (t "FAILED" 40)); try reflexivity.
  intros h' t' Hint. injection Hint as <- _. reflexivity.
Defined.

Lemma quiescent_is_frozen_witness :
  let t := Task.Make (Some "t1"%string) (Some 1) "SUCCEEDED" (Some 100) None in
  let w := World (Some "1"%string) (State (Some t) None false None)
             None 1 [In_loadModel] [] in
  let es := [Tick; Settle 0 (Model_settled (Http.failed_with 404 "not ready"));
             Tick] in
  task (st (run es w)) = task (st w) ∧ interval (run es w) = None
  ∧ sent (run es w) = sent w.
Proof.
  intros t w es.
  apply (quiescent_is_frozen es w); [reflexivity| |].
  - repeat constructor.
  - repeat constructor; discriminate.
Defined.

(** X18: a job whose [gallery_item_id] is missing or zero never has its
    final model fetched: adopting such a response, from the start or from
    a poll, sends nothing, whatever its status. *)
Theorem falsy_gallery_item_id_never_fetches (w : world) (i : nat)
    (p : pending) (res : Http.response Task.t) (data : Task.t) :
  inflight w !! i = Some p → adopts p = true →
  Http.ok res = true → Http.json res = inr data →
  Task.gallery_item_id data = None ∨ Task.gallery_item_id data = Some 0 →
  sent (step (Settle i (Task_settled (Http.Resolved res))) w) = sent w.
Proof.
  intros Hi Hp Hok Hjson Hg.
  rewrite (adoption_sent _ _ _ _ _ Hi Hp Hok Hjson).
  case_decide; [by rewrite app_nil_r|].
  destruct Hg as [-> | ->]; by rewrite app_nil_r.
Qed.

Lemma falsy_gallery_item_id_never_fetches_witness :
  let t := Task.Make (Some "t1"%string) (Some 0) "SUCCEEDED" (Some 100) None in
  let w := World (Some "0"%string) (State None None true None) None 0
             [In_startTask] [Http.POST_generate_meshy "0"] in
  sent (step (Settle 0 (Task_settled (Http.ok_with t))) w) = sent w.
Proof.
  intros t w.
  apply (falsy_gallery_item_id_never_fetches w 0%nat In_startTask
           (Http.Response 200 (inl (Http.Thrown None)) (inr t)) t);
    try reflexivity.
  right. reflexivity.
Defined.

(** X19: the final model is recorded only from a 2xx answer whose body
    parses; any other outcome of the fetch is silent: the model stays as it
    was and no error is shown.  No outcome touches [loading] or the
    interval. *)
Theorem model_only_from_2xx (w : world) (j : nat)
    (o : Http.outcome FinalModel.t) :
  inflight w !! j = Some In_loadModel →
  let w' := step (Settle j (Model_settled o)) w in
  (model (st w') ≠ model (st w) →
   ∃ res data, o = Http.Resolved res ∧ Http.ok res = true
               ∧ Http.json res = inr data ∧ model (st w') = Some data)
  ∧ error (st w') = error (st w)
  ∧ loading (st w') = loading (st w)
  ∧ interval w' = interval w.
Proof.
  intros Hj. unfold step. rewrite Hj. unfold loadModel_resume.
  destruct o as [err|res]; [done|].
  destruct (Http.ok res) eqn:Hok; [|done].
  destruct (Http.json res) as [err|data] eqn:Hjson; [done|].
  rewrite commit_same_task by done. cbn.
  repeat split. intros _. by exists res, data.
Qed.

Lemma model_only_from_2xx_witness :
  let w := World (Some "1"%string) (State None None false None) None 0
             [In_loadModel] [] in
  let w' := step (Settle 0 (Model_settled (Http.failed_with 404 "not ready"))) w in
  error (st w') = None ∧ loading (st w') = false ∧ interval w' = None.
Proof.
  intros w.
  exact (proj2 (model_only_from_2xx w 0%nat
                  (Http.failed_with 404 "not ready") eq_refl)).
Defined.

(** X20: a start that fails (the fetch rejects, the response is not 2xx,
    or the body does not parse) leaves a job that is already recorded, its
    interval and the model untouched; it shows the thrown message, or
    "Failed to start Meshy task" when there is none, and ends [loading]. *)
Theorem failed_start_keeps_job_and_interval (w : world) (i : nat)
    (o : Http.outcome Task.t) (err : Http.exn) :
  inflight w !! i = Some In_startTask →
  Http.try_json o = inl err →
  let w' := step (Settle i (Task_settled o)) w in
  task (st w') = task (st w) ∧ model (st w') = model (st w)
  ∧ interval w' = interval w ∧ sent w' = sent w
  ∧ loading (st w') = false
  ∧ error (st w')
    = Some (default "Failed to start Meshy task"%string (Http.message err)).
Proof.
  intros Hi Herr. unfold step. rewrite Hi. unfold startTask_resume.
  rewrite Herr. by rewrite commit_same_task.
Qed.

Lemma failed_start_keeps_job_and_interval_witness :
  let t := Task.Make (Some "t1"%string) (Some 1) "IN_PROGRESS" (Some 40) None in
  let w := World (Some "1"%string) (State (Some t) None true None)
             (Some (0%nat, "t1"%string)) 1 [In_startTask] [] in
  let w' := step (Settle 0 (Task_settled (Http.Rejected (Http.Thrown None)))) w in
  task (st w') = Some t ∧ model (st w') = None
  ∧ interval w' = Some (0%nat, "t1"%string) ∧ sent w' = []
  ∧ loading (st w') = false
  ∧ error (st w') = Some "Failed to start Meshy task"%string.
Proof.
  intros t w.
  exact (failed_start_keeps_job_and_interval w 0%nat
           (Http.Rejected (Http.Thrown None)) (Http.Thrown None)
           eq_refl eq_refl).
Defined.



(** X22: a poll, whatever its outcome, never touches the error shown,
    [loading] or the model; it changes the recorded job only when its
    response is 2xx with a body that parses, and then to that body. *)
Theorem poll_touches_only_the_job (w : world) (i h : nat) (tid : string)
    (o : Http.outcome Task.t) :
  inflight w !! i = Some (In_poll h tid) →
  let w' := step (Settle i (Task_settled o)) w in
  error (st w') = error (st w)
  ∧ loading (st w') = loading (st w)
  ∧ model (st w') = model (st w)
  ∧ (task (st w') ≠ task (st w) →
     ∃ res data, o = Http.Resolved res ∧ Http.ok res = true
                 ∧ Http.json res = inr data ∧ task (st w') = Some data).
Proof.
  intros Hi w'. subst w'. rewrite (settle_poll _ _ _ _ _ Hi).
  destruct o as [err|res]; [done|].
  destruct (Http.ok res) eqn:Hok.
  - destruct (Http.json res) as [err|data] eqn:Hjson.
    + unfold poll_resume. by rewrite Hok, Hjson.
    + rewrite (poll_resume_task _ _ _ _ Hok Hjson). cbn.
      repeat split. intros _. by exists res, data.
  - unfold poll_resume. by rewrite Hok.
Qed.

Lemma poll_touches_only_the_job_witness :
  let t p := Task.Make (Some "t1"%string) (Some 1) "IN_PROGRESS" (Some p) None in
  let w := World (Some "1"%string)
             (State (Some (t 40)) None true (Some "earlier"%string))
             (Some (0%nat, "t1"%string)) 1 [In_poll 0 "t1"] [] in
  let w' := step (Settle 0 (Task_settled (Http.ok_with (t 55)))) w in
  error (st w') = Some "earlier"%string ∧ loading (st w') = true
  ∧ model (st w') = None.
Proof.
  intros t w.
  destruct (poll_touches_only_the_job w 0%nat 0%nat "t1"
              (Http.ok_with (t 55)) eq_refl) as (He & Hl & Hm & _).
  exact (conj He (conj Hl Hm)).
Defined.

End final_page_steps.
